(** * Head-pose focus service: the frame pipeline and the calibration session

    A shallow embedding of [main.py]: [process_frame] (payload decoding,
    landmark detection, pose solve) and the receive/classify/send loop of
    [websocket_endpoint].

    Modelling conventions.
    - A Python [float] (and NumPy's [float64]) is a binary64 number of the
      kernel ([PrimFloat.float]), with the IEEE operations and comparisons
      of the source.
    - The value returned by [process_frame] is dynamically typed in the
      source (a [str], a 3-tuple, or the implicit [None]); it is the
      inductive [pyresult] here.
    - OpenCV, MediaPipe and [base64] are outside the repository: they are
      the fields of the class [Libs].  [cv2.imdecode] is called outside
      the [try]: it may raise (it does on an empty buffer), return [None]
      or return a frame.  The face-mesh object is a module
      global that tracks between calls, so its state is threaded
      explicitly ([tracker]).
    - [np.mean] is the sum of the elements, added in the order of NumPy's
      pairwise summation, divided by their number ([np_mean]).
    - An uncaught Python exception ends the handler: [process_frame]
      returns or raises, and one loop iteration yields an [outcome],
      either [Sent status s'] or [Raised e]. *)

From Stdlib Require Import ZArith List String Ascii Bool Lia PrimFloat.
Import ListNotations.

Local Open Scope string_scope.
Local Open Scope list_scope.
Local Open Scope float_scope.

Set Warnings "-inexact-float".

(** ** Numbers *)

(** A Python [int] used in float arithmetic; exact below 2^53, which
    covers the image sizes and list lengths met here. *)
Fixpoint of_pos (p : positive) : float :=
  match p with
  | xH => 1
  | xO q => 2 * of_pos q
  | xI q => 2 * of_pos q + 1
  end.

Definition of_int (z : Z) : float :=
  match z with
  | Z0 => 0
  | Zpos p => of_pos p
  | Zneg p => - of_pos p
  end.

Definition vec2 : Type := float * float.
Definition vec3 : Type := float * float * float.
Definition matrix : Type := list (list float).

(** ** Python values and exceptions *)

(** What [process_frame] can hand back to the caller. *)
Inductive pyresult : Type :=
| RStr (s : string)
| RTuple (pitch yaw roll : float)
| RNone.

Inductive pyexn : Type :=
| TypeError
| UnboundLocalError
| IndexError
| CvError.                        (* cv2.error *)

(** A computation that returns or raises. *)
Definition raising (A : Type) : Type := pyexn + A.

(** [type(result_base)==type('abc')] *)
Definition is_str (r : pyresult) : bool :=
  match r with RStr _ => true | _ => false end.

(** ** External libraries *)

Record landmark := { lm_x : float; lm_y : float }.

(** [face_landmarks.landmark[i]] *)
Definition face := nat -> landmark.

Class Libs := {
  image : Type;
  tracker : Type;
  (** [base64.b64decode]: the exception text, or the decoded bytes *)
  b64decode : string -> string + list Byte.byte;
  (** [cv2.imdecode(np.frombuffer(..), cv2.IMREAD_COLOR)]: raises, returns
      [None] (the bytes are not an image), or returns the frame *)
  imdecode : list Byte.byte -> raising (option image);
  (** [frame.shape], as (h, w) *)
  shape : image -> Z * Z;
  cvtColor : image -> image;
  (** [face_mesh.process(..).multi_face_landmarks] *)
  face_mesh_process : tracker -> image -> tracker * option (list face);
  (** [cv2.solvePnP]: (success, rotation_vector, translation_vector) *)
  solvePnP : list vec3 -> list vec2 -> matrix -> list float -> bool * vec3 * vec3;
  Rodrigues : vec3 -> matrix;
  (** [cv2.RQDecomp3x3]: the Euler angles [retval] *)
  RQDecomp3x3 : matrix -> vec3
}.

(** ** Payload prefix *)

(** [s.split(",", 1)] *)
Fixpoint split_comma_once (s : string) : list string :=
  match s with
  | EmptyString => (EmptyString :: nil)%list
  | String c rest =>
      if Ascii.eqb c ","%char then (EmptyString :: rest :: nil)%list
      else match split_comma_once rest with
           | (h :: t)%list => (String c h :: t)%list
           | nil => nil
           end
  end.

Definition unpack_error : string :=
  "not enough values to unpack (expected 2, got 1)".

(** The first two statements of the [try] block: the text handed to the
    base64 decoder, or the message of the exception raised on the way. *)
Definition strip_metadata (image_data : string) : string + string :=
  if prefix "data:" image_data then
    match split_comma_once image_data with
    | (header :: image_data' :: nil)%list => inr image_data'
    | _ => inl unpack_error
    end
  else inr image_data.

Definition decode_error (e : string) : string :=
  ("Error: Decoding Base64 failed - " ++ e)%string.

(** The whole [try]/[except]: decoded bytes, or the status returned early. *)
Definition decode_payload `{L : Libs} (image_data : string) : string + list Byte.byte :=
  match strip_metadata image_data with
  | inl e => inl (decode_error e)
  | inr data =>
      match b64decode data with
      | inl e => inl (decode_error e)
      | inr img_bytes => inr img_bytes
      end
  end.

(** ** Pose estimation *)

Definition model_points : list vec3 :=
  [ (0.0, 0.0, 0.0);
    (0.0, -63.6, -12.5);
    (-43.3, 32.7, -26.0);
    (43.3, 32.7, -26.0);
    (-28.9, -28.9, -24.1);
    (28.9, -28.9, -24.1) ].

Definition pixel (f : face) (i : nat) (w h : Z) : vec2 :=
  (lm_x (f i) * of_int w, lm_y (f i) * of_int h).

Definition image_points (f : face) (w h : Z) : list vec2 :=
  [ pixel f 1 w h; pixel f 152 w h; pixel f 33 w h;
    pixel f 263 w h; pixel f 61 w h; pixel f 291 w h ].

Definition camera_matrix (w h : Z) : matrix :=
  let focal_length := of_int w in
  let center := (of_int w / 2, of_int h / 2) in
  [ [focal_length; 0; fst center];
    [0; focal_length; snd center];
    [0; 0; 1] ].

Definition dist_coeffs : list float := [0; 0; 0; 0].

(** The body of [for face_landmarks in results.multi_face_landmarks]:
    the first face whose solve succeeds returns its angles; when the loop
    runs out the function falls off its end and the result is [None]. *)
Fixpoint estimate_faces `{L : Libs} (faces : list face) (w h : Z) : pyresult :=
  match faces with
  | [] => RNone
  | face_landmarks :: more =>
      let '(success, rotation_vector, _) :=
        solvePnP model_points (image_points face_landmarks w h)
                 (camera_matrix w h) dist_coeffs in
      if success then
        let rotation_matrix := Rodrigues rotation_vector in
        let '(pitch, yaw, roll) := RQDecomp3x3 rotation_matrix in
        RTuple pitch yaw roll
      else estimate_faces more w h
  end.

(** [process_frame] returns a result (with the tracker as the detector
    left it) or raises: [cv2.imdecode] is called after the [try] block, so
    what it raises leaves the function. *)
Definition process_frame `{L : Libs} (fm : tracker) (image_data : string)
  : raising (tracker * pyresult) :=
  match decode_payload image_data with
  | inl status => inr (fm, RStr status)
  | inr img_bytes =>
      match imdecode img_bytes with
      | inl e => inl e
      | inr None => inr (fm, RStr "Error: Invalid frame")
      | inr (Some frame) =>
          let '(h, w) := shape frame in
          let frame_rgb := cvtColor frame in
          let '(fm', multi_face_landmarks) := face_mesh_process fm frame_rgb in
          match multi_face_landmarks with
          | Some (face0 :: more)%list =>
              inr (fm', estimate_faces (face0 :: more) w h)
          | _ => (* [None] and the empty list are both falsy *)
              inr (fm', RStr "Pose Not Detected")
          end
      end
  end.

(** ** The session of one connection *)

(** The locals of [websocket_endpoint].  A baseline variable is [None]
    while Python has not bound it yet. *)
Record session := {
  calibration_frames : Z;
  calibration_angles : list pyresult;
  baseline_pitch : option float;
  baseline_yaw : option float;
  baseline_roll : option float
}.

Definition new_session : session :=
  {| calibration_frames := 10;
     calibration_angles := [];
     baseline_pitch := None;
     baseline_yaw := None;
     baseline_roll := None |}.

(** One iteration of [while True] after [receive_text]. *)
Inductive outcome : Type :=
| Sent (status : string) (s' : session)
| Raised (e : pyexn).

(** The error monad of the statements that can raise. *)
Definition bind {A B} (m : raising A) (k : A -> raising B) : raising B :=
  match m with
  | inl e => inl e
  | inr a => k a
  end.

Notation "x <- m ;; k" := (bind m (fun x => k))
  (at level 61, m at next level, right associativity).

(** [angle[i]] *)
Definition getitem (angle : pyresult) (i : nat) : raising float :=
  match angle with
  | RTuple pitch yaw roll =>
      match i with
      | O => inr pitch
      | S O => inr yaw
      | S (S O) => inr roll
      | _ => inl IndexError
      end
  | RNone => inl TypeError        (* 'NoneType' object is not subscriptable *)
  | RStr _ => inl TypeError       (* a str is never appended; its items are not numbers *)
  end.

(** [[angle[i] for angle in calibration_angles]] *)
Fixpoint comprehension (i : nat) (angles : list pyresult) : raising (list float) :=
  match angles with
  | [] => inr []
  | angle :: rest =>
      x <- getitem angle i ;;
      xs <- comprehension i rest ;;
      inr (x :: xs)
  end.

Definition of_nat (n : nat) : float := of_int (Z.of_nat n).

(** Eight running sums taking the elements in turn, eight at a time; what
    is left over when fewer than eight remain. *)
Fixpoint add_blocks (r0 r1 r2 r3 r4 r5 r6 r7 : float) (xs : list float)
  : float * list float :=
  match xs with
  | a0 :: a1 :: a2 :: a3 :: a4 :: a5 :: a6 :: a7 :: rest =>
      add_blocks (r0 + a0) (r1 + a1) (r2 + a2) (r3 + a3)
                 (r4 + a4) (r5 + a5) (r6 + a6) (r7 + a7) rest
  | _ => (((r0 + r1) + (r2 + r3)) + ((r4 + r5) + (r6 + r7)), xs)
  end.

(** NumPy's sum of a contiguous [float64] array ([np.add.reduce], pairwise
    summation), added to the initial value 0 of the reduction: fewer than
    eight elements are added left to right; from eight on, eight running
    sums are combined as a balanced tree and the elements left over are
    added one by one.  (Above its block size of 128 NumPy first halves the
    array; that is not needed for the ten elements the handler passes.) *)
Definition add_reduce (xs : list float) : float :=
  match xs with
  | a0 :: a1 :: a2 :: a3 :: a4 :: a5 :: a6 :: a7 :: rest =>
      let '(res, left_over) := add_blocks a0 a1 a2 a3 a4 a5 a6 a7 rest in
      0 + fold_left add left_over res
  | _ => fold_left add xs 0
  end.

(** [np.mean] of a list of floats: the sum divided by the count. *)
Definition np_mean (xs : list float) : float :=
  add_reduce xs / of_nat (List.length xs).

(** [pitch, yaw, roll = result_base] *)
Definition unpack3 (result_base : pyresult) : raising vec3 :=
  match result_base with
  | RTuple pitch yaw roll => inr (pitch, yaw, roll)
  | _ => inl TypeError
  end.

(** Reading a local that may not be bound. *)
Definition load (v : option float) : raising float :=
  match v with
  | Some x => inr x
  | None => inl UnboundLocalError
  end.

Definition loop_body (s : session) (result_base : pyresult) : outcome :=
  match result_base with
  | RStr status => Sent status s
  | _ =>
      if negb (calibration_frames s =? 0)%Z then
        let calibration_frames' := (calibration_frames s - 1)%Z in
        let calibration_angles' := calibration_angles s ++ [result_base] in
        if (calibration_frames' =? 0)%Z then
          match
            (pitches <- comprehension 0 calibration_angles' ;;
             yaws <- comprehension 1 calibration_angles' ;;
             rolls <- comprehension 2 calibration_angles' ;;
             inr (np_mean pitches, np_mean yaws, np_mean rolls))
          with
          | inl e => Raised e
          | inr (bp, by_, br) =>
              Sent "Calculating Face Angles"
                   {| calibration_frames := calibration_frames';
                      calibration_angles := calibration_angles';
                      baseline_pitch := Some bp;
                      baseline_yaw := Some by_;
                      baseline_roll := Some br |}
          end
        else
          Sent "Calculating Face Angles"
               {| calibration_frames := calibration_frames';
                  calibration_angles := calibration_angles';
                  baseline_pitch := baseline_pitch s;
                  baseline_yaw := baseline_yaw s;
                  baseline_roll := baseline_roll s |}
      else
        match
          (pyr <- unpack3 result_base ;;
           let '(pitch, yaw, roll) := pyr in
           bp <- load (baseline_pitch s) ;;
           let relative_pitch := abs (pitch - bp) in
           by_ <- load (baseline_yaw s) ;;
           let relative_yaw := abs (yaw - by_) in
           br <- load (baseline_roll s) ;;
           let relative_roll := abs (roll - br) in
           inr ((relative_pitch <? 40)
                && (relative_yaw <? 40)
                && (relative_roll <? 40)))
        with
        | inl e => Raised e
        | inr true => Sent "Focused" s
        | inr false => Sent "Not Focused" s
        end
  end.

(** How the handler ends: the client goes away ([WebSocketDisconnect],
    caught, the locals at that moment kept for inspection), or another
    exception, raised by [process_frame] or by the loop body, escapes the
    [try]. *)
Inductive ending : Type :=
| Disconnected (s : session)
| Crashed (e : pyexn).

(** What the session saw for a frame and what it sent back. *)
Definition event : Type := pyresult * string.

(** The [while True] loop over the texts the client sends before it
    disconnects. *)
Fixpoint websocket_loop `{L : Libs} (fm : tracker) (s : session) (inbox : list string)
  : list event * ending :=
  match inbox with
  | [] => ([], Disconnected s)
  | image_data :: later =>
      match process_frame fm image_data with
      | inl e => ([], Crashed e)
      | inr (fm', result_base) =>
          match loop_body s result_base with
          | Sent status s' =>
              let '(evs, fin) := websocket_loop fm' s' later in
              ((result_base, status) :: evs, fin)
          | Raised e => ([], Crashed e)
          end
      end
  end.

Definition websocket_endpoint `{L : Libs} (fm : tracker) (inbox : list string)
  : list event * ending :=
  websocket_loop fm new_session inbox.

Definition statuses (evs : list event) : list string := map snd evs.

(** ** A concrete environment

    A small instance of [Libs] on which the pipeline can be run: every
    image is 1x1, the tracker is the script of detections still to come,
    and the solver reads the answer off the landmarks it is given (the
    [y] of landmark 1 says whether it converges, the [x] of landmarks 1,
    152 and 33 are the angles). *)
Module Demo.

Definition scripted_face (converges : bool) (pitch yaw roll : float) : face :=
  fun i =>
    match i with
    | 1%nat => {| lm_x := pitch; lm_y := if converges then 1 else 0 |}
    | 152%nat => {| lm_x := yaw; lm_y := 0 |}
    | 33%nat => {| lm_x := roll; lm_y := 0 |}
    | _ => {| lm_x := 0; lm_y := 0 |}
    end.

Definition zero3 : vec3 := (0, 0, 0).

#[export] Instance libs : Libs := {|
  image := unit;
  tracker := list (option (list face));
  b64decode := fun s =>
    if (String.length s mod 4 =? 0)%nat then inr (list_byte_of_string s)
    else inl "Incorrect padding";
  imdecode := fun img_bytes =>
    match img_bytes with
    | [] => inl CvError
    | b :: _ => if Byte.eqb b Byte.x41 then inr (Some tt) else inr None
    end;
  shape := fun _ => (1%Z, 1%Z);
  cvtColor := fun frame => frame;
  face_mesh_process := fun fm _ =>
    match fm with
    | [] => ([], None)
    | seen :: fm' => (fm', seen)
    end;
  solvePnP := fun _ pts _ _ =>
    match pts with
    | (pitch, ok) :: (yaw, _) :: (roll, _) :: _ =>
        (negb (ok <? 1), (pitch, yaw, roll), zero3)
    | _ => (false, zero3, zero3)
    end;
  Rodrigues := fun '(a, b, c) => [a; b; c] :: nil;
  RQDecomp3x3 := fun m =>
    match m with
    | [a; b; c] :: _ => (a, b, c)
    | _ => zero3
    end
|}.

(** One face at the given angles, solver converging. *)
Definition pose (pitch yaw roll : float) : option (list face) :=
  Some (scripted_face true pitch yaw roll :: nil).

(** One face on which the solver reports failure. *)
Definition unsolved : option (list face) :=
  Some (scripted_face false 0 0 0 :: nil).

Definition no_face : option (list face) := None.

(** A payload that decodes to an image. *)
Definition jpeg : string := "data:image/jpeg;base64,AAAA".

End Demo.

(** ** Vocabulary of the properties *)

Definition pitch_of (t : vec3) : float := fst (fst t).
Definition yaw_of (t : vec3) : float := snd (fst t).
Definition roll_of (t : vec3) : float := snd t.

Definition tuple (t : vec3) : pyresult :=
  RTuple (pitch_of t) (yaw_of t) (roll_of t).

(** Component-wise arithmetic mean of a list of estimates. *)
Definition mean3 (ts : list vec3) : vec3 :=
  (np_mean (map pitch_of ts), np_mean (map yaw_of ts), np_mean (map roll_of ts)).

(** The mean of ten floats with every operation written out: the initial
    0 of the reduction, the eight running sums combined as a tree, the
    ninth and tenth element added one after the other, the division by
    the count. *)
Definition mean_of_ten (a0 a1 a2 a3 a4 a5 a6 a7 a8 a9 : float) : float :=
  (0 + (((((a0 + a1) + (a2 + a3)) + ((a4 + a5) + (a6 + a7))) + a8) + a9)) / 10.

Definition mean_of_ten_copies (x : float) : float :=
  mean_of_ten x x x x x x x x x x.

(** The three baseline locals read together; [None] while any is unbound. *)
Definition baseline (s : session) : option vec3 :=
  match baseline_pitch s, baseline_yaw s, baseline_roll s with
  | Some bp, Some by_, Some br => Some (bp, by_, br)
  | _, _, _ => None
  end.

(** A successful pose estimate. *)
Definition is_estimate (r : pyresult) : bool :=
  match r with RTuple _ _ _ => true | _ => false end.

Definition successes (rs : list pyresult) : nat :=
  List.length (filter is_estimate rs).

Definition is_classification (status : string) : bool :=
  String.eqb status "Focused" || String.eqb status "Not Focused".

Definition classifications (sts : list string) : nat :=
  List.length (filter is_classification sts).

(** [abs(x - b) < 40] in the floats of the source. *)
Definition within (x b : float) : Prop := (abs (x - b) <? 40) = true.

Fixpoint has_comma (s : string) : bool :=
  match s with
  | EmptyString => false
  | String c rest => Ascii.eqb c ","%char || has_comma rest
  end.

(** The statuses [process_frame] itself can produce. *)
Definition pipeline (r : pyresult) : Prop :=
  match r with
  | RStr status => prefix "Error:" status = true \/ status = "Pose Not Detected"
  | _ => True
  end.

(** Running the session alone over recorded events: the state after them,
    provided each recorded status is the one the loop body sends. *)
Fixpoint replay (s : session) (evs : list event) : option session :=
  match evs with
  | [] => Some s
  | (result_base, status) :: later =>
      match loop_body s result_base with
      | Sent status' s' =>
          if String.eqb status' status then replay s' later else None
      | Raised _ => None
      end
  end.

(** The shape of the locals between two iterations. *)
Record session_inv (s : session) : Prop := {
  inv_range : (0 <= calibration_frames s <= 10)%Z;
  inv_slots : Z.of_nat (List.length (calibration_angles s))
              = (10 - calibration_frames s)%Z;
  inv_open : calibration_frames s <> 0%Z -> baseline s = None;
  inv_done : calibration_frames s = 0%Z ->
             exists ts, calibration_angles s = map tuple ts
                        /\ baseline s = Some (mean3 ts)
}.

(** Ghost counters: [n] estimates and [c] classifications so far. *)
Definition counted (s : session) (n c : nat) : Prop :=
  n = (successes (calibration_angles s) + c)%nat
  /\ (c <> 0%nat -> calibration_frames s = 0%Z).

Section Handler.

Context `{L : Libs}.

(** The sessions a connection can be in when the client disconnects. *)
Definition reachable (s : session) : Prop :=
  exists fm inbox evs, websocket_endpoint fm inbox = (evs, Disconnected s).

(** [b64decode] raises on what it is given. *)
Definition base64_fails (image_data : string) : Prop :=
  exists data e, strip_metadata image_data = inr data /\ b64decode data = inl e.

(** The bytes decode, [cv2.imdecode] returns [None]. *)
Definition image_fails (image_data : string) : Prop :=
  exists data img_bytes,
    strip_metadata image_data = inr data
    /\ b64decode data = inr img_bytes
    /\ imdecode img_bytes = inr None.

End Handler.

Definition tick (b : bool) : nat := if b then 1%nat else 0%nat.

(** Everything a sending iteration can have done. *)
Inductive sent_step (s : session) (r : pyresult) (status : string) (s' : session)
  : Prop :=
| step_str :
    r = RStr status -> s' = s -> sent_step s r status s'
| step_collect :
    is_str r = false ->
    calibration_frames s <> 0%Z -> calibration_frames s <> 1%Z ->
    status = "Calculating Face Angles" ->
    calibration_frames s' = (calibration_frames s - 1)%Z ->
    calibration_angles s' = calibration_angles s ++ r :: nil ->
    baseline s' = baseline s ->
    sent_step s r status s'
| step_finalize (ts : list vec3) :
    is_str r = false ->
    calibration_frames s = 1%Z ->
    status = "Calculating Face Angles" ->
    calibration_frames s' = 0%Z ->
    calibration_angles s' = calibration_angles s ++ r :: nil ->
    calibration_angles s' = map tuple ts ->
    baseline s' = Some (mean3 ts) ->
    sent_step s r status s'
| step_classify (pitch yaw roll : float) (b : vec3) :
    r = RTuple pitch yaw roll ->
    calibration_frames s = 0%Z ->
    baseline s = Some b ->
    s' = s ->
    status = (if (abs (pitch - pitch_of b) <? 40)
                 && (abs (yaw - yaw_of b) <? 40)
                 && (abs (roll - roll_of b) <? 40)
              then "Focused" else "Not Focused") ->
    sent_step s r status s'.


(** ** Sums of equal terms in any order *)

Definition insert_new (v : float) (l : list float) : list float :=
  if existsb (PrimFloat.eqb v) l then l else v :: l.

(** From the sums of [1], ..., [k] copies (last first), the sums of
    [k + 1] copies: one addition of a sum of [i] and a sum of [k + 1 - i]. *)
Definition next_sums (table : list (list float)) : list float :=
  fold_left
    (fun acc '(sa, sb) =>
       fold_left
         (fun acc a => fold_left (fun acc b => insert_new (a + b) acc) sb acc)
         sa acc)
    (combine table (rev table)) [].

(** [sums_table x n] lists, for [n] down to [1], every value that adding
    that many copies of [x] can give, whatever the grouping of the
    additions. *)
Fixpoint sums_table (x : float) (n : nat) : list (list float) :=
  match n with
  | O => []
  | S O => (x :: nil) :: nil
  | S m => let table := sums_table x m in next_sums table :: table
  end.

Definition sums_of_copies (x : float) (n : nat) : list float :=
  hd [] (sums_table x n).

(** ** Sessions of the concrete environment *)

(** The locals when the client disconnects after [inbox]. *)
Definition session_after `{L : Libs} (fm : tracker) (inbox : list string) : session :=
  match snd (websocket_endpoint fm inbox) with
  | Disconnected s => s
  | Crashed _ => new_session
  end.

Module Scenario.

Import Demo.

Definition origin : vec3 := (0, 0, 0).

(** Ten frames at (0, 0, 0): the calibration is over. *)
Definition calibrated : session :=
  session_after (L := libs) (repeat (pose 0 0 0) 10) (repeat jpeg 10).

(** Two more frames after that: a head turned away, then no face. *)
Definition later : session :=
  match snd (websocket_loop (L := libs) (pose 45 0 0 :: no_face :: nil)
                            calibrated (jpeg :: jpeg :: nil)) with
  | Disconnected s => s
  | Crashed _ => new_session
  end.

(** Nine frames at (3, 4, 5): one slot left. *)
Definition nine : session :=
  session_after (L := libs) (repeat (pose 3 4 5) 9) (repeat jpeg 9).

(** The tenth frame at (3, 4, 5) has been taken. *)
Definition ten : session :=
  session_after (L := libs) (repeat (pose 3 4 5) 10) (repeat jpeg 10).

(** The same with every angle at 123.456 degrees. *)
Definition steady : vec3 := (123.456, 123.456, 123.456).

Definition steady_nine : session :=
  session_after (L := libs)
    (repeat (pose 123.456 123.456 123.456) 9) (repeat jpeg 9).

Definition steady_ten : session :=
  session_after (L := libs)
    (repeat (pose 123.456 123.456 123.456) 10) (repeat jpeg 10).

End Scenario.

(** ** Vocabulary of the further properties *)

(** What [process_frame] returns for each text of an inbox, the tracker
    passing from one call to the next, up to the first text on which it
    raises. *)
Fixpoint frame_results `{L : Libs} (fm : tracker) (inbox : list string)
  : list pyresult :=
  match inbox with
  | [] => []
  | image_data :: later =>
      match process_frame fm image_data with
      | inl _ => []               (* the handler is gone *)
      | inr (fm', result_base) => result_base :: frame_results fm' later
      end
  end.

(** The exception of the first text on which [process_frame] raises, if
    there is one. *)
Fixpoint first_raise `{L : Libs} (fm : tracker) (inbox : list string)
  : option pyexn :=
  match inbox with
  | [] => None
  | image_data :: later =>
      match process_frame fm image_data with
      | inl e => Some e
      | inr (fm', _) => first_raise fm' later
      end
  end.

(** The tracker after the frames of an inbox have been processed. *)
Fixpoint tracker_after `{L : Libs} (fm : tracker) (inbox : list string) : tracker :=
  match inbox with
  | [] => fm
  | image_data :: later =>
      match process_frame fm image_data with
      | inl _ => fm
      | inr (fm', _) => tracker_after fm' later
      end
  end.

(** A result that goes down the [else] branch of the handler. *)
Definition takes_slot (r : pyresult) : bool := negb (is_str r).

Definition slots_asked (rs : list pyresult) : nat :=
  List.length (filter takes_slot rs).

Definition calculating (sts : list string) : nat :=
  List.length (filter (String.eqb "Calculating Face Angles") sts).

(** The five kinds of text the handler sends. *)
Definition known_status (status : string) : Prop :=
  status = "Pose Not Detected"
  \/ status = "Calculating Face Angles"
  \/ status = "Focused"
  \/ status = "Not Focused"
  \/ prefix "Error:" status = true.

(** ** More runs of the concrete environment *)

Module Runs.

Import Demo.

(** Three estimates, with a frame without a face and an undecodable
    payload in between. *)
Definition mixed_seen : list (option (list face)) :=
  pose 1 2 3 :: no_face :: pose 1 2 3 :: pose 1 2 3 :: nil.

Definition mixed_inbox : list string :=
  jpeg :: jpeg :: "AA" :: jpeg :: jpeg :: nil.

(** A full calibration, two classified frames, a failed solve, one more
    frame. *)
Definition crash_seen : list (option (list face)) :=
  repeat (pose 0 0 0) 10
  ++ pose 5 5 5 :: pose 45 0 0 :: unsolved :: pose 0 0 0 :: nil.

Definition crash_inbox : list string := repeat jpeg 14.

(** A failed solve on the second frame of the calibration. *)
Definition poisoned_seen : list (option (list face)) :=
  pose 0 0 0 :: unsolved :: repeat (pose 0 0 0) 9.

Definition poisoned_inbox : list string := repeat jpeg 11.

(** A calibration followed by two classified frames. *)
Definition full_seen : list (option (list face)) :=
  repeat (pose 0 0 0) 10 ++ pose 5 5 5 :: pose 45 0 0 :: nil.

Definition full_inbox : list string := repeat jpeg 12.

End Runs.

(** * Proofs *)

(** ** Counting estimates *)

Lemma all_equal_repeat {A} (t : A) (l : list A) :
  (forall x, In x l -> x = t) -> l = repeat t (List.length l).
Proof.
  induction l as [|x l IH]; intros Hall; simpl; [reflexivity|].
  rewrite (Hall x (or_introl eq_refl)). f_equal.
  apply IH. intros y Hy. apply Hall. right. exact Hy.
Qed.

Lemma tuple_inj (a b : vec3) : tuple a = tuple b -> a = b.
Proof.
  destruct a as [[p y] r], b as [[p' y'] r'].
  unfold tuple, pitch_of, yaw_of, roll_of. cbn [fst snd].
  intros H. injection H as Hp Hy Hr. subst. reflexivity.
Qed.

Lemma map_tuple_inj (l1 l2 : list vec3) : map tuple l1 = map tuple l2 -> l1 = l2.
Proof.
  revert l2. induction l1 as [|a l1 IH]; intros [|b l2] H; simpl in H;
    try discriminate H; [reflexivity|].
  assert (Hab : tuple a = tuple b) by congruence.
  assert (Hrest : map tuple l1 = map tuple l2) by congruence.
  rewrite (tuple_inj a b Hab), (IH l2 Hrest). reflexivity.
Qed.

Lemma successes_app (a b : list pyresult) :
  successes (a ++ b) = (successes a + successes b)%nat.
Proof. unfold successes. rewrite filter_app, length_app. reflexivity. Qed.

Lemma successes_tuples (ts : list vec3) :
  successes (map tuple ts) = List.length ts.
Proof.
  unfold successes. induction ts as [|t ts IH]; simpl; [reflexivity|].
  rewrite IH. reflexivity.
Qed.

(** ** The list comprehensions of the finalization *)

Lemma comprehension_tuples (i : nat) (ts : list vec3) :
  (i < 3)%nat ->
  comprehension i (map tuple ts)
  = inr (map (fun t => match i with
                       | O => pitch_of t
                       | S O => yaw_of t
                       | _ => roll_of t
                       end) ts).
Proof.
  intros Hi. induction ts as [|t ts IH]; simpl; [reflexivity|].
  rewrite IH. destruct i as [|[|[|i]]]; simpl; try reflexivity. lia.
Qed.

Lemma comprehension_inv (i : nat) (angles : list pyresult) (xs : list float) :
  comprehension i angles = inr xs -> exists ts, angles = map tuple ts.
Proof.
  revert xs. induction angles as [|a rest IH]; intros xs H.
  - exists []. reflexivity.
  - simpl in H. destruct a as [st|p y r|]; simpl in H; try discriminate H.
    destruct (comprehension i rest) as [e|ys] eqn:E.
    + destruct i as [|[|[|i]]]; simpl in H; discriminate H.
    + destruct (IH ys eq_refl) as [ts Hts].
      exists ((p, y, r) :: ts). simpl. rewrite Hts. reflexivity.
Qed.

Lemma comprehension_none (i : nat) (angles : list pyresult) :
  In RNone angles -> exists e, comprehension i angles = inl e.
Proof.
  induction angles as [|a rest IH]; intros Hin; [contradiction Hin|].
  destruct Hin as [->|Hin].
  - exists TypeError. reflexivity.
  - destruct (IH Hin) as [e He]. simpl.
    destruct (getitem a i) as [e'|x]; simpl.
    + exists e'. reflexivity.
    + rewrite He. exists e. reflexivity.
Qed.

(** ** One iteration of the loop *)

Lemma new_session_inv : session_inv new_session.
Proof.
  split; simpl; try lia; try reflexivity; intros H; discriminate H.
Qed.

Lemma baseline_fields (s : session) (b : vec3) :
  baseline s = Some b ->
  baseline_pitch s = Some (pitch_of b)
  /\ baseline_yaw s = Some (yaw_of b)
  /\ baseline_roll s = Some (roll_of b).
Proof.
  unfold baseline.
  destruct (baseline_pitch s), (baseline_yaw s), (baseline_roll s);
    intros H; inversion H; subst; auto.
Qed.

(** The three means of the finalization, on a list of tuples. *)
Lemma finalize_tuples (ts : list vec3) :
  (pitches <- comprehension 0 (map tuple ts) ;;
   yaws <- comprehension 1 (map tuple ts) ;;
   rolls <- comprehension 2 (map tuple ts) ;;
   inr (np_mean pitches, np_mean yaws, np_mean rolls))
  = inr (mean3 ts).
Proof.
  rewrite !comprehension_tuples by lia. reflexivity.
Qed.

(** The branch a non-string result takes while slots remain and this is
    not the last one. *)
Lemma loop_body_collect (s : session) (r : pyresult) :
  is_str r = false ->
  calibration_frames s <> 0%Z -> calibration_frames s <> 1%Z ->
  loop_body s r =
  Sent "Calculating Face Angles"
       {| calibration_frames := calibration_frames s - 1;
          calibration_angles := calibration_angles s ++ r :: nil;
          baseline_pitch := baseline_pitch s;
          baseline_yaw := baseline_yaw s;
          baseline_roll := baseline_roll s |}.
Proof.
  intros Hr H0 H1. unfold loop_body.
  destruct (Z.eqb_spec (calibration_frames s) 0) as [E|_]; [contradiction|].
  destruct (Z.eqb_spec (calibration_frames s - 1) 0) as [E|_]; [lia|].
  destruct r; [discriminate Hr| |]; reflexivity.
Qed.

(** The branch that takes the last slot. *)
Lemma loop_body_finalize (s : session) (r : pyresult) :
  is_str r = false -> calibration_frames s = 1%Z ->
  loop_body s r =
  match
    (pitches <- comprehension 0 (calibration_angles s ++ r :: nil) ;;
     yaws <- comprehension 1 (calibration_angles s ++ r :: nil) ;;
     rolls <- comprehension 2 (calibration_angles s ++ r :: nil) ;;
     inr (np_mean pitches, np_mean yaws, np_mean rolls))
  with
  | inl e => Raised e
  | inr (bp, by_, br) =>
      Sent "Calculating Face Angles"
           {| calibration_frames := 0;
              calibration_angles := calibration_angles s ++ r :: nil;
              baseline_pitch := Some bp;
              baseline_yaw := Some by_;
              baseline_roll := Some br |}
  end.
Proof.
  intros Hr H1. unfold loop_body. rewrite H1. simpl.
  destruct r; [discriminate Hr| |]; reflexivity.
Qed.

(** The classification branch. *)
Lemma loop_body_classify (s : session) (pitch yaw roll : float) (b : vec3) :
  calibration_frames s = 0%Z -> baseline s = Some b ->
  loop_body s (RTuple pitch yaw roll) =
  if (abs (pitch - pitch_of b) <? 40)
     && (abs (yaw - yaw_of b) <? 40)
     && (abs (roll - roll_of b) <? 40)
  then Sent "Focused" s else Sent "Not Focused" s.
Proof.
  intros H0 Hb. apply baseline_fields in Hb. destruct Hb as (Hp & Hy & Hr).
  unfold loop_body. rewrite H0, Hp, Hy, Hr. simpl.
  destruct (_ && _ && _); reflexivity.
Qed.

Lemma loop_body_none_calibrated (s : session) :
  calibration_frames s = 0%Z -> loop_body s RNone = Raised TypeError.
Proof. intros H0. unfold loop_body. rewrite H0. reflexivity. Qed.

Lemma loop_body_sent (s : session) (r : pyresult) (status : string) (s' : session) :
  session_inv s -> loop_body s r = Sent status s' -> sent_step s r status s'.
Proof.
  intros Inv H.
  destruct (is_str r) eqn:Hr.
  { destruct r; try discriminate Hr. simpl in H. inversion H; subst.
    apply step_str; reflexivity. }
  destruct (Z.eq_dec (calibration_frames s) 0) as [E0|N0].
  { destruct (inv_done s Inv E0) as (ts & _ & Hb).
    destruct r as [st|p y r'|]; [discriminate Hr| |].
    - rewrite (loop_body_classify s p y r' _ E0 Hb) in H.
      eapply step_classify; eauto.
      + destruct (_ && _ && _); inversion H; reflexivity.
      + destruct (_ && _ && _); inversion H; reflexivity.
    - rewrite (loop_body_none_calibrated s E0) in H. discriminate H. }
  destruct (Z.eq_dec (calibration_frames s) 1) as [E1|N1].
  - rewrite (loop_body_finalize s r Hr E1) in H.
    destruct (comprehension 0 (calibration_angles s ++ r :: nil)) as [e|ps] eqn:C0;
      [simpl in H; discriminate H|].
    destruct (comprehension_inv _ _ _ C0) as [ts Hts].
    rewrite <- C0, Hts, finalize_tuples in H.
    unfold mean3 in H. inversion H; subst.
    apply step_finalize with (ts := ts); simpl; auto.
  - rewrite (loop_body_collect s r Hr N0 N1) in H. inversion H; subst.
    apply step_collect; simpl; auto.
Qed.

Lemma sent_step_inv (s : session) (r : pyresult) (status : string) (s' : session) :
  session_inv s -> sent_step s r status s' -> session_inv s'.
Proof.
  intros Inv [Hr ->|Hr N0 N1 _ Hc Ha Hb|ts Hr E1 _ Hc Ha Hts Hb|? ? ? ? _ _ _ -> _];
    try exact Inv; destruct Inv as [Hrange Hslots Hopen Hdone].
  - split.
    + lia.
    + rewrite Ha, length_app, Nat2Z.inj_add. cbn [List.length]. lia.
    + intros _. rewrite Hb. apply Hopen. exact N0.
    + intros E. lia.
  - split.
    + lia.
    + rewrite Ha, length_app, Nat2Z.inj_add. cbn [List.length]. lia.
    + intros N. contradiction.
    + intros _. exists ts. split; assumption.
Qed.

Lemma loop_body_inv (s : session) (r : pyresult) (status : string) (s' : session) :
  session_inv s -> loop_body s r = Sent status s' -> session_inv s'.
Proof.
  intros Inv H. apply (sent_step_inv s r status s' Inv).
  apply loop_body_sent; assumption.
Qed.

(** ** Replaying recorded events *)

Lemma replay_app (s : session) (before after : list event) :
  replay s (before ++ after)
  = match replay s before with
    | Some s1 => replay s1 after
    | None => None
    end.
Proof.
  revert s. induction before as [|[r st] before IH]; intros s; simpl.
  - reflexivity.
  - destruct (loop_body s r) as [st' s'|e]; [|reflexivity].
    destruct (String.eqb st' st); [apply IH | reflexivity].
Qed.

Lemma replay_cons (s s2 : session) (r : pyresult) (status : string)
      (later : list event) :
  replay s ((r, status) :: later) = Some s2 ->
  exists s1, loop_body s r = Sent status s1 /\ replay s1 later = Some s2.
Proof.
  simpl. destruct (loop_body s r) as [st' s'|e]; [|discriminate].
  destruct (String.eqb_spec st' status) as [->|]; [|discriminate].
  intros H. exists s'. split; [reflexivity | exact H].
Qed.

Lemma replay_inv (s s' : session) (evs : list event) :
  session_inv s -> replay s evs = Some s' -> session_inv s'.
Proof.
  revert s. induction evs as [|[r st] evs IH]; intros s Inv H.
  - inversion H; subst. exact Inv.
  - apply replay_cons in H. destruct H as (s1 & Hstep & Hrest).
    apply (IH s1); [|exact Hrest].
    apply (loop_body_inv s r st s1 Inv Hstep).
Qed.

(** Once the calibration is over the locals are never written again. *)
Lemma replay_calibrated (s s' : session) (evs : list event) :
  session_inv s -> calibration_frames s = 0%Z ->
  replay s evs = Some s' -> s' = s.
Proof.
  revert s. induction evs as [|[r st] evs IH]; intros s Inv E0 H.
  - inversion H; reflexivity.
  - apply replay_cons in H. destruct H as (s1 & Hstep & Hrest).
    assert (s1 = s) as ->.
    { destruct (loop_body_sent s r st s1 Inv Hstep); auto; lia. }
    apply IH; assumption.
Qed.

(** ** Ghost counters *)

Lemma pipeline_not_classification (status : string) :
  pipeline (RStr status) -> is_classification status = false.
Proof.
  unfold is_classification. intros [H | ->]; [|reflexivity].
  destruct (String.eqb_spec status "Focused") as [->|_]; [discriminate H|].
  destruct (String.eqb_spec status "Not Focused") as [->|_]; [discriminate H|].
  reflexivity.
Qed.

Lemma successes_single (r : pyresult) :
  successes (r :: nil) = tick (is_estimate r).
Proof. unfold successes. simpl. destruct (is_estimate r); reflexivity. Qed.

Lemma calibrated_successes (s : session) :
  session_inv s -> calibration_frames s = 0%Z ->
  successes (calibration_angles s) = 10%nat.
Proof.
  intros Inv E0. pose proof (inv_slots s Inv) as Hlen.
  destruct (inv_done s Inv E0) as (ts & Hts & _).
  rewrite Hts, successes_tuples. rewrite Hts, length_map in Hlen. lia.
Qed.

Lemma sent_step_counted (s s' : session) (r : pyresult) (status : string)
      (n c : nat) :
  session_inv s -> counted s n c -> pipeline r ->
  sent_step s r status s' ->
  counted s' (n + tick (is_estimate r)) (c + tick (is_classification status)).
Proof.
  intros Inv [Hn Hc] Hp
         [-> ->|Hr N0 N1 -> Hcf Ha Hb|ts Hr E1 -> Hcf Ha Hts Hb|p y r' b -> E0 Hb -> ->].
  - rewrite (pipeline_not_classification _ Hp). simpl.
    rewrite !Nat.add_0_r. split; assumption.
  - assert (c = 0%nat) as -> by (destruct c; [reflexivity | exfalso; apply N0, Hc; discriminate]).
    split; [|simpl; intros H; contradiction H; reflexivity].
    rewrite Ha, successes_app, successes_single, Hn. simpl. lia.
  - assert (c = 0%nat) as -> by (destruct c; [reflexivity | exfalso; assert (calibration_frames s = 0%Z) by (apply Hc; discriminate); lia]).
    split; [|intros _; exact Hcf].
    rewrite Ha, successes_app, successes_single, Hn. simpl. lia.
  - split; [|intros _; exact E0].
    assert (is_classification
              (if (abs (p - pitch_of b) <? 40)
                  && (abs (y - yaw_of b) <? 40)
                  && (abs (r' - roll_of b) <? 40)
               then "Focused" else "Not Focused") = true) as ->
        by (destruct (_ && _ && _); reflexivity).
    simpl. lia.
Qed.

Lemma replay_counted (s s' : session) (evs : list event) (n c : nat) :
  session_inv s -> counted s n c ->
  Forall pipeline (map fst evs) ->
  replay s evs = Some s' ->
  counted s' (n + successes (map fst evs)) (c + classifications (map snd evs)).
Proof.
  revert s n c. induction evs as [|[r st] evs IH]; intros s n c Inv Hcnt Hall H.
  - inversion H; subst. simpl. unfold successes, classifications. simpl.
    rewrite !Nat.add_0_r. exact Hcnt.
  - apply replay_cons in H. destruct H as (s1 & Hstep & Hrest).
    simpl in Hall. inversion Hall as [|? ? Hp Hall']; subst.
    pose proof (loop_body_sent s r st s1 Inv Hstep) as Hsent.
    pose proof (sent_step_counted s s1 r st n c Inv Hcnt Hp Hsent) as Hcnt1.
    pose proof (IH s1 _ _ (sent_step_inv s r st s1 Inv Hsent) Hcnt1 Hall' Hrest) as Hfin.
    unfold successes, classifications in *. cbn [map fst snd filter].
    destruct (is_estimate r), (is_classification st);
      cbn [tick List.length] in *;
      rewrite ?Nat.add_0_r, <- ?Nat.add_assoc in Hfin; exact Hfin.
Qed.

Lemma new_session_counted : counted new_session 0 0.
Proof. split; [reflexivity | intros H; contradiction H; reflexivity]. Qed.

(** ** Further lemmas on the counter, the prefix and the last slot *)

Lemma sent_step_counter (s s' : session) (r : pyresult) (status : string) :
  sent_step s r status s' ->
  (calibration_frames s - 1 <= calibration_frames s' <= calibration_frames s)%Z
  /\ (calibration_frames s = 0%Z -> calibration_frames s' = 0%Z).
Proof.
  intros [_ ->|_ N0 _ _ Hc _ _|ts _ E1 _ Hc _ _ _|? ? ? ? _ _ _ -> _]; lia.
Qed.

Lemma replay_counter (s s' : session) (evs : list event) :
  session_inv s -> replay s evs = Some s' ->
  (calibration_frames s' <= calibration_frames s)%Z.
Proof.
  revert s. induction evs as [|[r st] evs IH]; intros s Inv H.
  - inversion H; subst. lia.
  - apply replay_cons in H. destruct H as (s1 & Hstep & Hrest).
    pose proof (loop_body_sent s r st s1 Inv Hstep) as Hsent.
    pose proof (sent_step_counter s s1 r st Hsent) as [Hc _].
    pose proof (IH s1 (sent_step_inv s r st s1 Inv Hsent) Hrest). lia.
Qed.

Lemma comprehension_last_none (angles : list pyresult) :
  comprehension 0 (angles ++ RNone :: nil) = inl TypeError.
Proof.
  induction angles as [|a rest IH]; simpl; [reflexivity|].
  rewrite IH. destruct a; reflexivity.
Qed.

Lemma string_length_append (a b : string) :
  String.length (a ++ b)%string = (String.length a + String.length b)%nat.
Proof. induction a as [|c a IH]; simpl; [reflexivity | rewrite IH; reflexivity]. Qed.

Lemma split_without_comma (s : string) :
  has_comma s = false -> split_comma_once s = s :: nil.
Proof.
  induction s as [|c rest IH]; simpl; [reflexivity|].
  destruct (Ascii.eqb c ","%char); simpl; [discriminate|].
  intros H. rewrite (IH H). reflexivity.
Qed.

Lemma split_at_first_comma (header rest : string) :
  has_comma header = false ->
  split_comma_once (header ++ String ","%char rest)%string = header :: rest :: nil.
Proof.
  induction header as [|c header IH]; simpl; [reflexivity|].
  destruct (Ascii.eqb c ","%char); simpl; [discriminate|].
  intros H. rewrite (IH H). reflexivity.
Qed.

Lemma strip_metadata_without_comma (image_data : string) :
  prefix "data:" image_data = true -> has_comma image_data = false ->
  strip_metadata image_data = inl unpack_error.
Proof.
  intros Hp Hc. unfold strip_metadata.
  rewrite Hp, (split_without_comma image_data Hc). reflexivity.
Qed.

(** ** The frame pipeline *)

Section Pipeline.

Context `{L : Libs}.

Lemma estimate_faces_pipeline (faces : list face) (w h : Z) :
  pipeline (estimate_faces faces w h).
Proof.
  induction faces as [|f faces IH]; simpl; [exact I|].
  destruct (solvePnP _ _ _ _) as [[success rv] tv].
  destruct success; [|exact IH].
  destruct (RQDecomp3x3 _) as [[p y] r]. exact I.
Qed.

(** When no solve converges the loop over the faces runs out. *)
Lemma estimate_faces_none (faces : list face) (w h : Z) :
  (forall f, In f faces ->
     fst (fst (solvePnP model_points (image_points f w h)
                        (camera_matrix w h) dist_coeffs)) = false) ->
  estimate_faces faces w h = RNone.
Proof.
  induction faces as [|f faces IH]; intros Hfail; simpl; [reflexivity|].
  pose proof (Hfail f (or_introl eq_refl)) as Hf.
  destruct (solvePnP _ _ _ _) as [[success rv] tv]. simpl in Hf. subst success.
  apply IH. intros g Hg. apply Hfail. right. exact Hg.
Qed.

Lemma decode_error_prefix (e : string) : prefix "Error:" (decode_error e) = true.
Proof. reflexivity. Qed.

Lemma decode_payload_status (image_data status : string) :
  decode_payload image_data = inl status -> prefix "Error:" status = true.
Proof.
  unfold decode_payload.
  destruct (strip_metadata image_data) as [e|data].
  - intros H. inversion H. apply decode_error_prefix.
  - destruct (b64decode data) as [e|img_bytes]; intros H; inversion H.
    apply decode_error_prefix.
Qed.

Lemma process_frame_pipeline (fm fm' : tracker) (image_data : string)
      (r : pyresult) :
  process_frame fm image_data = inr (fm', r) -> pipeline r.
Proof.
  unfold process_frame.
  destruct (decode_payload image_data) as [status|img_bytes] eqn:D.
  - intros H. inversion H; subst. simpl. left.
    apply (decode_payload_status image_data). exact D.
  - destruct (imdecode img_bytes) as [e|[frame|]]; [discriminate| |].
    + destruct (shape frame) as [h w].
      destruct (face_mesh_process fm (cvtColor frame)) as [fm1 [[|f faces]|]];
        intros H; inversion H; subst; simpl; try (right; reflexivity).
      apply (estimate_faces_pipeline (f :: faces)).
    + intros H. inversion H; subst. simpl. left. reflexivity.
Qed.

(** The handler's trace is a replay of the session over results that all
    come out of the pipeline. *)
Lemma websocket_loop_replay (fm : tracker) (s : session) (inbox : list string)
      (evs : list event) (fin : ending) :
  websocket_loop fm s inbox = (evs, fin) ->
  Forall pipeline (map fst evs)
  /\ exists s', replay s evs = Some s'
                /\ forall sf, fin = Disconnected sf -> sf = s'.
Proof.
  revert fm s evs fin.
  induction inbox as [|image_data later IH]; intros fm s evs fin H; simpl in H.
  - inversion H; subst. split; [constructor|].
    exists s. split; [reflexivity|]. intros sf E. inversion E. reflexivity.
  - destruct (process_frame fm image_data) as [e|[fm' r]] eqn:Hpf.
    { inversion H; subst. split; [constructor|].
      exists s. split; [reflexivity|]. intros sf E. discriminate E. }
    pose proof (process_frame_pipeline fm fm' image_data r Hpf) as Hp.
    destruct (loop_body s r) as [st s1|e] eqn:Hstep.
    + destruct (websocket_loop fm' s1 later) as [evs1 fin1] eqn:Hrest.
      inversion H; subst.
      destruct (IH _ _ _ _ Hrest) as (Hall & s' & Hrep & Hfin).
      split; [constructor; assumption|].
      exists s'. split; [|exact Hfin].
      simpl. rewrite Hstep, String.eqb_refl. exact Hrep.
    + inversion H; subst. split; [constructor|].
      exists s. split; [reflexivity|]. intros sf E. discriminate E.
Qed.

Lemma reachable_replay (s : session) :
  reachable s ->
  exists evs, Forall pipeline (map fst evs) /\ replay new_session evs = Some s.
Proof.
  intros (fm & inbox & evs & H).
  destruct (websocket_loop_replay _ _ _ _ _ H) as (Hall & s' & Hrep & Hfin).
  exists evs. rewrite (Hfin s eq_refl). split; assumption.
Qed.

Lemma reachable_inv (s : session) : reachable s -> session_inv s.
Proof.
  intros Hs. destruct (reachable_replay s Hs) as (evs & _ & Hrep).
  apply (replay_inv new_session s evs new_session_inv Hrep).
Qed.

Lemma reachable_baseline (s : session) (b : vec3) :
  reachable s -> baseline s = Some b -> calibration_frames s = 0%Z.
Proof.
  intros Hs Hb. pose proof (reachable_inv s Hs) as Inv.
  destruct (Z.eq_dec (calibration_frames s) 0) as [E|N]; [exact E|].
  rewrite (inv_open s Inv N) in Hb. discriminate Hb.
Qed.

End Pipeline.

(** ** Facts about the concrete sessions *)

Lemma reachable_intro `{L : Libs} (fm : tracker) (inbox : list string)
      (evs : list event) (s : session) :
  websocket_endpoint fm inbox = (evs, Disconnected s) -> reachable s.
Proof. intros H. exists fm, inbox, evs. exact H. Qed.

Module ScenarioFacts.

Import Demo Scenario.

Lemma calibrated_reachable : reachable calibrated.
Proof.
  apply (reachable_intro (L := libs) (repeat (pose 0 0 0) 10) (repeat jpeg 10)
           (fst (websocket_endpoint (L := libs) (repeat (pose 0 0 0) 10) (repeat jpeg 10)))).
  vm_compute. reflexivity.
Defined.

Lemma nine_reachable : reachable nine.
Proof.
  apply (reachable_intro (L := libs) (repeat (pose 3 4 5) 9) (repeat jpeg 9)
           (fst (websocket_endpoint (L := libs) (repeat (pose 3 4 5) 9) (repeat jpeg 9)))).
  vm_compute. reflexivity.
Defined.

Lemma steady_nine_reachable : reachable steady_nine.
Proof.
  apply (reachable_intro (L := libs)
           (repeat (pose 123.456 123.456 123.456) 9) (repeat jpeg 9)
           (fst (websocket_endpoint (L := libs)
                   (repeat (pose 123.456 123.456 123.456) 9) (repeat jpeg 9)))).
  vm_compute. reflexivity.
Defined.

Lemma calibrated_baseline : baseline calibrated = Some origin.
Proof. vm_compute. reflexivity. Defined.

End ScenarioFacts.

(** ** The claims *)

(** C1 (the code departs from it).  A frame in which a face is found but
    the pose solve does not converge is not reported as "Pose Not
    Detected": in a fresh session it is answered "Calculating Face
    Angles", the counter goes from 10 to 9 and [None] is stored among the
    calibration angles.  A frame without a face, in contrast, is answered
    "Pose Not Detected" and leaves the session as it was. *)
Theorem solver_failure_takes_calibration_slot :
  websocket_endpoint (L := Demo.libs) (Demo.unsolved :: nil) (Demo.jpeg :: nil)
  = ((RNone, "Calculating Face Angles") :: nil,
     Disconnected {| calibration_frames := 9;
                     calibration_angles := RNone :: nil;
                     baseline_pitch := None;
                     baseline_yaw := None;
                     baseline_roll := None |})
  /\ websocket_endpoint (L := Demo.libs) (Demo.no_face :: nil) (Demo.jpeg :: nil)
     = ((RStr "Pose Not Detected", "Pose Not Detected") :: nil,
        Disconnected new_session).
Proof. split; vm_compute; reflexivity. Qed.

(** C5 (the code departs from it).  After ten estimates, a frame on which
    the solve does not converge raises [TypeError] in the handler: ten
    statuses have been sent for twelve frames received, nothing is sent
    for the eleventh, and the twelfth is never read. *)
Theorem solver_failure_ends_calibrated_session :
  let inbox := repeat Demo.jpeg 12 in
  let seen := repeat (Demo.pose 0 0 0) 10 ++ Demo.unsolved :: Demo.pose 0 0 0 :: nil in
  statuses (fst (websocket_endpoint (L := Demo.libs) seen inbox))
  = repeat "Calculating Face Angles" 10
  /\ snd (websocket_endpoint (L := Demo.libs) seen inbox) = Crashed TypeError
  /\ loop_body Scenario.calibrated RNone = Raised TypeError.
Proof. repeat split; vm_compute; reflexivity. Qed.

(** C6 (the code departs from it).  An empty image buffer is an image
    decoding failure that is not answered: the payloads "" and "data:,"
    pass the base64 stage with no bytes, [cv2.imdecode] raises outside
    the [try], no status is sent and the text after it is never read.  A
    base64 failure and bytes that are not an image, in contrast, are
    answered with "Error: ..." and the session goes on unchanged. *)
Theorem empty_image_buffer_ends_session :
  websocket_endpoint (L := Demo.libs) nil ("" :: "AA" :: nil)
  = (nil, Crashed CvError)
  /\ websocket_endpoint (L := Demo.libs) nil ("data:," :: "AA" :: nil)
     = (nil, Crashed CvError)
  /\ websocket_endpoint (L := Demo.libs) nil ("AA" :: "BBBB" :: nil)
     = ((RStr "Error: Decoding Base64 failed - Incorrect padding",
         "Error: Decoding Base64 failed - Incorrect padding")
          :: (RStr "Error: Invalid frame", "Error: Invalid frame") :: nil,
        Disconnected new_session).
Proof. repeat split; vm_compute; reflexivity. Qed.

Section Claims.

Context `{L : Libs}.

(** C2.  Once the baseline exists, a successful estimate is answered
    "Focused" exactly when each of the three absolute differences to the
    baseline is strictly below 40, and "Not Focused" otherwise; a
    difference of exactly 40 on any axis gives "Not Focused".  The
    session is left as it was. *)
Theorem focused_iff_all_within_40 (s : session) (b : vec3) (pitch yaw roll : float) :
  reachable s -> baseline s = Some b ->
  exists status,
    loop_body s (RTuple pitch yaw roll) = Sent status s
    /\ (status = "Focused" \/ status = "Not Focused")
    /\ (status = "Focused" <->
        within pitch (pitch_of b) /\ within yaw (yaw_of b) /\ within roll (roll_of b))
    /\ (abs (pitch - pitch_of b) = 40
        \/ abs (yaw - yaw_of b) = 40
        \/ abs (roll - roll_of b) = 40 ->
        status = "Not Focused").
Proof.
  intros Hs Hb.
  rewrite (loop_body_classify s pitch yaw roll b (reachable_baseline s b Hs Hb) Hb).
  unfold within.
  destruct (abs (pitch - pitch_of b) <? 40) eqn:Ep;
    destruct (abs (yaw - yaw_of b) <? 40) eqn:Ey;
    destruct (abs (roll - roll_of b) <? 40) eqn:Er;
    cbn [andb];
    (eexists; split; [reflexivity|]);
    (split; [auto|]);
    (split; [split; [intros H; try discriminate H; auto
                    | intros (H1 & H2 & H3); try discriminate; auto]|]);
    try (intros _; reflexivity);
    intros [H|[H|H]]; rewrite H in *;
    match goal with E : (40 <? 40) = true |- _ => vm_compute in E; discriminate E end.
Qed.

(** C3 (amended).  On the frame that takes the last calibration slot
    the baseline is the component-wise mean of the collected estimates,
    of which there are ten, as [np.mean] computes it in binary64: on each
    axis 0 + ((((a0 + a1) + (a2 + a3)) + ((a4 + a5) + (a6 + a7))) + a8)
    + a9, divided by 10.  When the ten estimates are all the same triple
    (p, y, r), each component of the baseline is that expression on ten
    copies of the component, and the baseline is (p, y, r) exactly when
    the expression gives back p, y and r. *)
Theorem baseline_is_mean_of_ten (s s' : session) (r : pyresult) (status : string) :
  reachable s ->
  calibration_frames s <> 0%Z ->
  loop_body s r = Sent status s' ->
  calibration_frames s' = 0%Z ->
  (exists ts : list vec3,
      calibration_angles s' = map tuple ts
      /\ List.length ts = 10%nat
      /\ baseline s' = Some (mean3 ts))
  /\ (forall a0 a1 a2 a3 a4 a5 a6 a7 a8 a9 : vec3,
        calibration_angles s'
        = map tuple (a0 :: a1 :: a2 :: a3 :: a4 :: a5 :: a6 :: a7 :: a8 :: a9 :: nil) ->
        baseline s'
        = Some (mean_of_ten (pitch_of a0) (pitch_of a1) (pitch_of a2) (pitch_of a3)
                            (pitch_of a4) (pitch_of a5) (pitch_of a6) (pitch_of a7)
                            (pitch_of a8) (pitch_of a9),
                mean_of_ten (yaw_of a0) (yaw_of a1) (yaw_of a2) (yaw_of a3)
                            (yaw_of a4) (yaw_of a5) (yaw_of a6) (yaw_of a7)
                            (yaw_of a8) (yaw_of a9),
                mean_of_ten (roll_of a0) (roll_of a1) (roll_of a2) (roll_of a3)
                            (roll_of a4) (roll_of a5) (roll_of a6) (roll_of a7)
                            (roll_of a8) (roll_of a9)))
  /\ (forall t : vec3,
        calibration_angles s' = map tuple (repeat t 10) ->
        baseline s' = Some (mean_of_ten_copies (pitch_of t),
                            mean_of_ten_copies (yaw_of t),
                            mean_of_ten_copies (roll_of t))
        /\ (baseline s' = Some t <->
            mean_of_ten_copies (pitch_of t) = pitch_of t
            /\ mean_of_ten_copies (yaw_of t) = yaw_of t
            /\ mean_of_ten_copies (roll_of t) = roll_of t)).
Proof.
  intros Hs N0 Hstep E0.
  pose proof (reachable_inv s Hs) as Inv.
  pose proof (loop_body_inv s r status s' Inv Hstep) as Inv'.
  destruct (inv_done s' Inv' E0) as (ts & Hts & Hb).
  pose proof (inv_slots s' Inv') as Hlen.
  rewrite Hts, length_map, E0 in Hlen.
  assert (Hten : List.length ts = 10%nat) by lia.
  assert (Hwritten : forall a0 a1 a2 a3 a4 a5 a6 a7 a8 a9 : vec3,
             calibration_angles s'
             = map tuple (a0 :: a1 :: a2 :: a3 :: a4 :: a5 :: a6 :: a7 :: a8 :: a9 :: nil) ->
             baseline s'
             = Some (mean_of_ten (pitch_of a0) (pitch_of a1) (pitch_of a2) (pitch_of a3)
                                 (pitch_of a4) (pitch_of a5) (pitch_of a6) (pitch_of a7)
                                 (pitch_of a8) (pitch_of a9),
                     mean_of_ten (yaw_of a0) (yaw_of a1) (yaw_of a2) (yaw_of a3)
                                 (yaw_of a4) (yaw_of a5) (yaw_of a6) (yaw_of a7)
                                 (yaw_of a8) (yaw_of a9),
                     mean_of_ten (roll_of a0) (roll_of a1) (roll_of a2) (roll_of a3)
                                 (roll_of a4) (roll_of a5) (roll_of a6) (roll_of a7)
                                 (roll_of a8) (roll_of a9))).
  { intros a0 a1 a2 a3 a4 a5 a6 a7 a8 a9 Ha.
    rewrite Hts in Ha. apply map_tuple_inj in Ha. subst ts.
    rewrite Hb. reflexivity. }
  split; [exists ts; repeat split; assumption|].
  split; [exact Hwritten|].
  intros [[p y] r0] Hsame.
  pose proof (Hwritten _ _ _ _ _ _ _ _ _ _ Hsame) as Hbase.
  split; [exact Hbase|].
  rewrite Hbase. unfold pitch_of, yaw_of, roll_of. cbn [fst snd]. split.
  - intros H. injection H as Hp Hy Hr. repeat split; assumption.
  - intros (Hp & Hy & Hr).
    fold (mean_of_ten_copies p). fold (mean_of_ten_copies y).
    fold (mean_of_ten_copies r0). rewrite Hp, Hy, Hr. reflexivity.
Qed.

(** C4.  In the trace of a session, a frame answered "Focused" or "Not
    Focused" has at least ten successful estimates strictly before it
    (exactly ten when it is the first classification); and the frame
    that brings the tenth successful estimate is answered "Calculating
    Face Angles". *)
Theorem no_classification_before_ten_estimates
        (fm : tracker) (inbox : list string) (evs : list event) (fin : ending) :
  websocket_endpoint fm inbox = (evs, fin) ->
  forall before r status after,
    evs = before ++ (r, status) :: after ->
    (status = "Focused" \/ status = "Not Focused" ->
       (10 <= successes (map fst before))%nat
       /\ (classifications (map snd before) = 0%nat ->
           successes (map fst before) = 10%nat))
    /\ (is_estimate r = true -> successes (map fst before) = 9%nat ->
        status = "Calculating Face Angles").
Proof.
  intros Hrun before r status after ->.
  destruct (websocket_loop_replay _ _ _ _ _ Hrun) as (Hall & s' & Hrep & _).
  rewrite replay_app in Hrep.
  destruct (replay new_session before) as [s1|] eqn:Hbefore; [|discriminate Hrep].
  apply replay_cons in Hrep. destruct Hrep as (s2 & Hstep & _).
  rewrite map_app in Hall. apply Forall_app in Hall. destruct Hall as [Hall1 Hall2].
  inversion Hall2 as [|? ? Hp _]; subst. simpl in Hp.
  pose proof (replay_inv _ _ _ new_session_inv Hbefore) as Inv1.
  pose proof (replay_counted _ _ _ _ _ new_session_inv new_session_counted
                             Hall1 Hbefore) as [Hn Hc].
  simpl in Hn, Hc.
  destruct (loop_body_sent s1 r status s2 Inv1 Hstep)
    as [-> _|_ _ _ -> _ _ _|ts _ _ -> _ _ _ _|p y r' b -> E0 _ _ _].
  - split.
    + intros Hcls. apply pipeline_not_classification in Hp.
      destruct Hcls as [-> | ->]; discriminate Hp.
    + intros Hest. discriminate Hest.
  - split; [intros [H|H]; discriminate H | reflexivity].
  - split; [intros [H|H]; discriminate H | reflexivity].
  - rewrite (calibrated_successes s1 Inv1 E0) in Hn.
    split; [intros _; lia | intros _ H9; lia].
Qed.

(** The decoding failures the code handles: when [b64decode] raises or
    [cv2.imdecode] returns [None], the frame is answered with a status
    that begins with "Error:"; the locals of the session and the tracker
    are as before, and the loop goes on with the next frame. *)
Lemma handled_decode_failure_is_error_status
      (fm : tracker) (s : session) (image_data : string) (later : list string) :
  base64_fails image_data \/ image_fails image_data ->
  exists status,
    prefix "Error:" status = true
    /\ process_frame fm image_data = inr (fm, RStr status)
    /\ loop_body s (RStr status) = Sent status s
    /\ websocket_loop fm s (image_data :: later)
       = ((RStr status, status) :: fst (websocket_loop fm s later),
          snd (websocket_loop fm s later)).
Proof.
  intros Hfail.
  assert (Hpf : exists status, prefix "Error:" status = true
                               /\ process_frame fm image_data = inr (fm, RStr status)).
  { unfold process_frame, decode_payload.
    destruct Hfail as [(data & e & Hs & Hd) | (data & img_bytes & Hs & Hd & Hi)];
      rewrite Hs, Hd.
    - exists (decode_error e). split; reflexivity.
    - rewrite Hi. exists "Error: Invalid frame". split; reflexivity. }
  destruct Hpf as (status & Hpre & Hpf).
  exists status. repeat split; try assumption.
  simpl. rewrite Hpf. simpl.
  destruct (websocket_loop fm s later) as [evs fin]. reflexivity.
Qed.

(** What [cv2.imdecode] raises leaves [process_frame] and the handler:
    nothing is sent for the frame and the texts after it are not read. *)
Lemma imdecode_exception_ends_session
      (fm : tracker) (s : session) (image_data : string) (later : list string)
      (img_bytes : list Byte.byte) (e : pyexn) :
  decode_payload image_data = inr img_bytes ->
  imdecode img_bytes = inl e ->
  process_frame fm image_data = inl e
  /\ websocket_loop fm s (image_data :: later) = (nil, Crashed e).
Proof.
  intros Hd Hi.
  assert (Hpf : process_frame fm image_data = inl e)
    by (unfold process_frame; rewrite Hd, Hi; reflexivity).
  split; [exact Hpf|]. simpl. rewrite Hpf. reflexivity.
Qed.

(** C7.  Once the baseline is computed no later frame changes it:
    neither one more iteration nor any further run of the loop. *)
Theorem baseline_never_changes (s : session) (b : vec3) :
  reachable s -> baseline s = Some b ->
  (forall r status s', loop_body s r = Sent status s' -> baseline s' = Some b)
  /\ (forall fm inbox evs s',
        websocket_loop fm s inbox = (evs, Disconnected s') -> baseline s' = Some b).
Proof.
  intros Hs Hb.
  pose proof (reachable_inv s Hs) as Inv.
  pose proof (reachable_baseline s b Hs Hb) as E0.
  split.
  - intros r status s' Hstep.
    assert (replay s ((r, status) :: nil) = Some s') as Hrep
        by (simpl; rewrite Hstep, String.eqb_refl; reflexivity).
    rewrite (replay_calibrated s s' _ Inv E0 Hrep). exact Hb.
  - intros fm inbox evs s' Hrun.
    destruct (websocket_loop_replay _ _ _ _ _ Hrun) as (_ & s1 & Hrep & Hfin).
    rewrite (Hfin s' eq_refl), (replay_calibrated s s1 _ Inv E0 Hrep). exact Hb.
Qed.

(** C8.  The counter of remaining calibration frames starts at 10; in
    every session it stays between 0 and 10, an iteration lowers it by
    at most 1 and never raises it, and once it is 0 it stays 0, over
    one iteration and over any further run. *)
Theorem calibration_counter_monotone :
  calibration_frames new_session = 10%Z
  /\ forall s, reachable s ->
       (0 <= calibration_frames s <= 10)%Z
       /\ (forall r status s', loop_body s r = Sent status s' ->
             (calibration_frames s - 1 <= calibration_frames s'
              <= calibration_frames s)%Z
             /\ (0 <= calibration_frames s')%Z
             /\ (calibration_frames s = 0%Z -> calibration_frames s' = 0%Z))
       /\ (forall fm inbox evs s',
             websocket_loop fm s inbox = (evs, Disconnected s') ->
             (0 <= calibration_frames s' <= calibration_frames s)%Z).
Proof.
  split; [reflexivity|]. intros s Hs.
  pose proof (reachable_inv s Hs) as Inv.
  split; [exact (inv_range s Inv)|]. split.
  - intros r status s' Hstep.
    pose proof (loop_body_sent s r status s' Inv Hstep) as Hsent.
    pose proof (sent_step_counter s s' r status Hsent) as [Hc H0].
    pose proof (inv_range s' (sent_step_inv s r status s' Inv Hsent)).
    repeat split; try lia.
  - intros fm inbox evs s' Hrun.
    destruct (websocket_loop_replay _ _ _ _ _ Hrun) as (_ & s1 & Hrep & Hfin).
    rewrite (Hfin s' eq_refl).
    pose proof (replay_counter s s1 evs Inv Hrep).
    pose proof (inv_range s1 (replay_inv s s1 evs Inv Hrep)). lia.
Qed.

(** C9.  When faces are found and the solve converges on none of them,
    [process_frame] returns [None], which is neither a string nor a
    tuple; the session takes it down the branch of the estimates: with
    slots left it is appended and counted like one (and raises on the
    last slot), after calibration it raises. *)
Theorem solver_failure_returns_none
        (fm fm' : tracker) (image_data : string) (img_bytes : list Byte.byte)
        (frame : image) (faces : list face) :
  decode_payload image_data = inr img_bytes ->
  imdecode img_bytes = inr (Some frame) ->
  face_mesh_process fm (cvtColor frame) = (fm', Some faces) ->
  faces <> nil ->
  (forall f, In f faces ->
     fst (fst (solvePnP model_points
                        (image_points f (snd (shape frame)) (fst (shape frame)))
                        (camera_matrix (snd (shape frame)) (fst (shape frame)))
                        dist_coeffs)) = false) ->
  process_frame fm image_data = inr (fm', RNone)
  /\ is_str RNone = false
  /\ is_estimate RNone = false
  /\ forall s,
       (calibration_frames s <> 0%Z -> calibration_frames s <> 1%Z ->
        loop_body s RNone
        = Sent "Calculating Face Angles"
               {| calibration_frames := calibration_frames s - 1;
                  calibration_angles := calibration_angles s ++ RNone :: nil;
                  baseline_pitch := baseline_pitch s;
                  baseline_yaw := baseline_yaw s;
                  baseline_roll := baseline_roll s |})
       /\ (calibration_frames s = 1%Z \/ calibration_frames s = 0%Z ->
           loop_body s RNone = Raised TypeError).
Proof.
  intros Hd Hi Hf Hne Hfail. split; [|split; [reflexivity|split; [reflexivity|]]].
  - unfold process_frame. rewrite Hd, Hi.
    destruct (shape frame) as [h w] eqn:Hshape. simpl in Hfail.
    rewrite Hf. destruct faces as [|f faces]; [contradiction Hne; reflexivity|].
    rewrite (estimate_faces_none (f :: faces) w h Hfail). reflexivity.
  - intros s. split.
    + intros N0 N1. apply loop_body_collect; [reflexivity | exact N0 | exact N1].
    + intros [E1|E0].
      * rewrite (loop_body_finalize s RNone eq_refl E1), comprehension_last_none.
        reflexivity.
      * apply loop_body_none_calibrated. exact E0.
Qed.

(** C10.  The text before the first comma is dropped exactly when the
    payload starts with "data:".  Without that prefix the payload goes
    to the base64 decoder as it is; with it and a comma, what follows
    the first comma goes to the decoder; with it and no comma, the
    frame is answered with a status that begins with "Error: Decoding
    Base64 failed". *)
Theorem metadata_prefix_stripping (image_data : string) :
  (prefix "data:" image_data = false ->
     strip_metadata image_data = inr image_data
     /\ decode_payload image_data
        = match b64decode image_data with
          | inl e => inl (decode_error e)
          | inr img_bytes => inr img_bytes
          end)
  /\ (prefix "data:" image_data = true ->
        (forall header rest,
            image_data = (header ++ "," ++ rest)%string ->
            has_comma header = false ->
            strip_metadata image_data = inr rest
            /\ rest <> image_data
            /\ decode_payload image_data
               = match b64decode rest with
                 | inl e => inl (decode_error e)
                 | inr img_bytes => inr img_bytes
                 end)
        /\ (has_comma image_data = false ->
            exists status,
              prefix "Error: Decoding Base64 failed" status = true
              /\ forall fm s,
                   process_frame fm image_data = inr (fm, RStr status)
                   /\ loop_body s (RStr status) = Sent status s)).
Proof.
  split; [|intros Hdata; split].
  - intros Hp. unfold decode_payload, strip_metadata. rewrite Hp.
    split; reflexivity.
  - intros header rest -> Hc.
    assert (Hs : strip_metadata (header ++ "," ++ rest) = inr rest).
    { unfold strip_metadata. rewrite Hdata.
      change ("," ++ rest)%string with (String ","%char rest).
      rewrite (split_at_first_comma header rest Hc). reflexivity. }
    split; [exact Hs|]. split.
    + intros E. apply (f_equal String.length) in E.
      rewrite string_length_append in E. simpl in E. lia.
    + unfold decode_payload. rewrite Hs. reflexivity.
  - intros Hc. exists (decode_error unpack_error). split; [reflexivity|].
    intros fm s. split; [|reflexivity].
    unfold process_frame, decode_payload.
    rewrite (strip_metadata_without_comma image_data Hdata Hc). reflexivity.
Qed.

End Claims.

(** ** Instances of the claims in the concrete environment *)

Lemma focused_iff_all_within_40_witness :
  exists status,
    loop_body Scenario.calibrated (RTuple 39.9 39.9 39.9)
    = Sent status Scenario.calibrated
    /\ (status = "Focused" \/ status = "Not Focused")
    /\ (status = "Focused" <->
        within 39.9 0 /\ within 39.9 0 /\ within 39.9 0)
    /\ (abs (39.9 - 0) = 40 \/ abs (39.9 - 0) = 40 \/ abs (39.9 - 0) = 40 ->
        status = "Not Focused").
Proof.
  apply (focused_iff_all_within_40 (L := Demo.libs) Scenario.calibrated Scenario.origin
           39.9 39.9 39.9).
  - exact ScenarioFacts.calibrated_reachable.
  - exact ScenarioFacts.calibrated_baseline.
Defined.

Lemma baseline_is_mean_of_ten_witness :
  baseline Scenario.ten = Some (3, 4, 5)
  /\ baseline Scenario.ten
     = Some (mean_of_ten_copies 3, mean_of_ten_copies 4, mean_of_ten_copies 5).
Proof.
  destruct (baseline_is_mean_of_ten (L := Demo.libs) Scenario.nine Scenario.ten
              (RTuple 3 4 5) "Calculating Face Angles")
    as (_ & _ & Hsame).
  - exact ScenarioFacts.nine_reachable.
  - vm_compute. discriminate.
  - vm_compute. reflexivity.
  - vm_compute. reflexivity.
  - destruct (Hsame (3, 4, 5)) as [Hcopies Hexact].
    + vm_compute. reflexivity.
    + split; [|exact Hcopies].
      apply Hexact. repeat split; vm_compute; reflexivity.
Defined.

(** C3 as stated fails: after ten estimates that are all (123.456,
    123.456, 123.456) the baseline is not that triple, because the sum
    and the division round. *)
Lemma mean_of_ten_equal_estimates_is_inexact :
  reachable (L := Demo.libs) Scenario.steady_nine
  /\ calibration_frames Scenario.steady_nine <> 0%Z
  /\ loop_body Scenario.steady_nine (tuple Scenario.steady)
     = Sent "Calculating Face Angles" Scenario.steady_ten
  /\ calibration_frames Scenario.steady_ten = 0%Z
  /\ calibration_angles Scenario.steady_ten = map tuple (repeat Scenario.steady 10)
  /\ baseline Scenario.steady_ten <> Some Scenario.steady
  /\ option_map (fun b => pitch_of b =? 123.456) (baseline Scenario.steady_ten)
     = Some false.
Proof.
  split; [exact ScenarioFacts.steady_nine_reachable|].
  split; [vm_compute; discriminate|].
  split; [vm_compute; reflexivity|].
  split; [vm_compute; reflexivity|].
  split; [vm_compute; reflexivity|].
  split; [|vm_compute; reflexivity].
  intros H.
  apply (f_equal (option_map (fun b => pitch_of b =? 123.456))) in H.
  vm_compute in H. discriminate H.
Qed.

(** The order of the additions is not what matters: however ten copies
    of 123.456 are added up, the tenth of the sum is a different float. *)
Lemma no_summation_order_gives_back_the_estimate :
  sums_of_copies 123.456 10 <> nil
  /\ forallb (fun total => negb (total / 10 =? 123.456))
             (sums_of_copies 123.456 10) = true
  /\ existsb (PrimFloat.eqb (add_reduce (repeat 123.456 10)))
             (sums_of_copies 123.456 10) = true.
Proof. repeat split; vm_compute; try reflexivity. discriminate. Qed.

Lemma no_classification_before_ten_estimates_witness :
  let run := websocket_endpoint (L := Demo.libs)
               (repeat (Demo.pose 0 0 0) 10 ++ Demo.pose 5 5 5 :: nil)
               (repeat Demo.jpeg 11) in
  let before := firstn 10 (fst run) in
  snd (nth 10 (fst run) (RNone, "")) = "Focused"
  /\ (10 <= successes (map fst before))%nat
  /\ (classifications (map snd before) = 0%nat ->
      successes (map fst before) = 10%nat).
Proof.
  intros run before. split; [vm_compute; reflexivity|].
  refine (proj1 (no_classification_before_ten_estimates (L := Demo.libs)
                   (repeat (Demo.pose 0 0 0) 10 ++ Demo.pose 5 5 5 :: nil)
                   (repeat Demo.jpeg 11) (fst run) (snd run) _
                   before (fst (nth 10 (fst run) (RNone, ""))) "Focused" nil _) _).
  - vm_compute. reflexivity.
  - vm_compute. reflexivity.
  - left. reflexivity.
Defined.

Lemma handled_decode_failure_is_error_status_witness :
  exists status,
    prefix "Error:" status = true
    /\ process_frame (L := Demo.libs) nil "AA" = inr (nil, RStr status)
    /\ loop_body new_session (RStr status) = Sent status new_session
    /\ websocket_loop (L := Demo.libs) nil new_session ("AA" :: nil)
       = ((RStr status, status) :: fst (websocket_loop (L := Demo.libs) nil new_session nil),
          snd (websocket_loop (L := Demo.libs) nil new_session nil)).
Proof.
  apply (handled_decode_failure_is_error_status (L := Demo.libs) nil new_session "AA" nil).
  left. exists "AA", "Incorrect padding". split; reflexivity.
Defined.

Lemma baseline_never_changes_witness :
  baseline Scenario.later = Some Scenario.origin.
Proof.
  apply (proj2 (baseline_never_changes (L := Demo.libs) Scenario.calibrated
                  Scenario.origin ScenarioFacts.calibrated_reachable
                  ScenarioFacts.calibrated_baseline)
           (Demo.pose 45 0 0 :: Demo.no_face :: nil) (Demo.jpeg :: Demo.jpeg :: nil)
           (fst (websocket_loop (L := Demo.libs)
                   (Demo.pose 45 0 0 :: Demo.no_face :: nil)
                   Scenario.calibrated (Demo.jpeg :: Demo.jpeg :: nil)))).
  vm_compute. reflexivity.
Defined.

Lemma calibration_counter_monotone_witness :
  (0 <= calibration_frames Scenario.nine <= 10)%Z
  /\ (calibration_frames Scenario.nine - 1 <= calibration_frames Scenario.ten
      <= calibration_frames Scenario.nine)%Z
  /\ (0 <= calibration_frames Scenario.ten)%Z.
Proof.
  destruct (proj2 (calibration_counter_monotone (L := Demo.libs))
                  Scenario.nine ScenarioFacts.nine_reachable) as (Hrange & Hstep & _).
  split; [exact Hrange|].
  destruct (Hstep (RTuple 3 4 5)
                  "Calculating Face Angles" Scenario.ten) as (H1 & H2 & _).
  - vm_compute. reflexivity.
  - split; [exact H1 | exact H2].
Defined.

Lemma solver_failure_returns_none_witness :
  process_frame (L := Demo.libs) (Demo.unsolved :: nil) Demo.jpeg = inr (nil, RNone)
  /\ loop_body Scenario.calibrated RNone = Raised TypeError.
Proof.
  destruct (solver_failure_returns_none (L := Demo.libs)
              (Demo.unsolved :: nil) nil Demo.jpeg (list_byte_of_string "AAAA") tt
              (Demo.scripted_face false 0 0 0 :: nil))
    as (Hnone & _ & _ & Hsession).
  - vm_compute. reflexivity.
  - reflexivity.
  - reflexivity.
  - discriminate.
  - intros f [<-|[]]. vm_compute. reflexivity.
  - split; [exact Hnone|].
    apply (proj2 (Hsession Scenario.calibrated)). right. vm_compute. reflexivity.
Defined.

Lemma metadata_prefix_stripping_witness :
  strip_metadata "data:image/jpeg;base64,AAAA" = inr "AAAA"
  /\ exists status,
       prefix "Error: Decoding Base64 failed" status = true
       /\ forall fm s,
            process_frame (L := Demo.libs) fm "data:AAAA" = inr (fm, RStr status)
            /\ loop_body s (RStr status) = Sent status s.
Proof.
  split.
  - apply (proj1 (proj2 (metadata_prefix_stripping (L := Demo.libs)
                           "data:image/jpeg;base64,AAAA") eq_refl)
             "data:image/jpeg;base64" "AAAA"); reflexivity.
  - apply (proj2 (proj2 (metadata_prefix_stripping (L := Demo.libs) "data:AAAA")
                        eq_refl)).
    reflexivity.
Defined.

(** * Further properties of the pipeline and the handler *)

(** ** Helper lemmas *)

Lemma sent_step_known (s s' : session) (r : pyresult) (status : string) :
  pipeline r -> sent_step s r status s' -> known_status status.
Proof.
  intros Hp [-> _|_ _ _ -> _ _ _|ts _ _ -> _ _ _ _|p y r' b _ _ _ _ ->];
    unfold known_status.
  - destruct Hp as [Hp | ->]; auto 6.
  - auto.
  - auto.
  - destruct (_ && _ && _); auto 6.
Qed.

Lemma replay_known (s s' : session) (evs : list event) :
  session_inv s -> Forall pipeline (map fst evs) -> replay s evs = Some s' ->
  Forall known_status (map snd evs).
Proof.
  revert s. induction evs as [|[r st] evs IH]; intros s Inv Hall H; simpl.
  - constructor.
  - apply replay_cons in H. destruct H as (s1 & Hstep & Hrest).
    simpl in Hall. inversion Hall as [|? ? Hp Hall']; subst.
    pose proof (loop_body_sent s r st s1 Inv Hstep) as Hsent.
    constructor.
    + exact (sent_step_known s s1 r st Hp Hsent).
    + apply (IH s1 (sent_step_inv s r st s1 Inv Hsent) Hall' Hrest).
Qed.

(** What a step does to the list of collected angles. *)
Lemma sent_step_angles (s s' : session) (r : pyresult) (status : string) :
  sent_step s r status s' ->
  calibration_angles s' = calibration_angles s
  \/ (is_str r = false /\ calibration_frames s <> 0%Z
      /\ calibration_angles s' = calibration_angles s ++ r :: nil).
Proof.
  intros [_ ->|Hr N0 _ _ _ Ha _|ts Hr E1 _ _ Ha _ _|? ? ? ? _ _ _ -> _]; auto.
  right. repeat split; auto. lia.
Qed.

Lemma replay_angles_kept (s s' : session) (evs : list event) (a : pyresult) :
  session_inv s -> replay s evs = Some s' ->
  In a (calibration_angles s) -> In a (calibration_angles s').
Proof.
  revert s. induction evs as [|[r st] evs IH]; intros s Inv H Hin.
  - inversion H; subst. exact Hin.
  - apply replay_cons in H. destruct H as (s1 & Hstep & Hrest).
    pose proof (loop_body_sent s r st s1 Inv Hstep) as Hsent.
    apply (IH s1 (sent_step_inv s r st s1 Inv Hsent) Hrest).
    destruct (sent_step_angles s s1 r st Hsent) as [-> | (_ & _ & ->)];
      [exact Hin | apply in_or_app; left; exact Hin].
Qed.

Lemma replay_angles_origin (s s' : session) (evs : list event) (a : pyresult) :
  session_inv s -> replay s evs = Some s' ->
  In a (calibration_angles s') ->
  In a (calibration_angles s) \/ (In a (map fst evs) /\ is_str a = false).
Proof.
  revert s. induction evs as [|[r st] evs IH]; intros s Inv H Hin.
  - inversion H; subst. left. exact Hin.
  - apply replay_cons in H. destruct H as (s1 & Hstep & Hrest).
    pose proof (loop_body_sent s r st s1 Inv Hstep) as Hsent.
    destruct (IH s1 (sent_step_inv s r st s1 Inv Hsent) Hrest Hin)
      as [H1 | [Hev Ha]].
    + destruct (sent_step_angles s s1 r st Hsent) as [E | (Hr & _ & E)];
        rewrite E in H1; [left; exact H1|].
      apply in_app_or in H1. destruct H1 as [H1 | [<- | []]];
        [left; exact H1 | right; split; [left; reflexivity | exact Hr]].
    + right. split; [right; exact Hev | exact Ha].
Qed.

Lemma comprehension_error (angles : list pyresult) (e : pyexn) :
  comprehension 0 angles = inl e ->
  e = TypeError /\ exists a, In a angles /\ is_estimate a = false.
Proof.
  induction angles as [|a rest IH]; simpl; [discriminate|].
  destruct a as [st|p y r|]; simpl.
  - intros H. inversion H. split; [reflexivity|].
    exists (RStr st). split; [left; reflexivity | reflexivity].
  - destruct (comprehension 0 rest) as [e'|xs]; simpl; [|discriminate].
    intros H. inversion H; subst.
    destruct (IH eq_refl) as (He & a & Ha & Hest).
    split; [exact He|]. exists a. split; [right; exact Ha | exact Hest].
  - intros H. inversion H. split; [reflexivity|].
    exists RNone. split; [left; reflexivity | reflexivity].
Qed.

(** The only way an iteration raises. *)
Lemma loop_body_raised (s : session) (r : pyresult) (e : pyexn) :
  session_inv s ->
  (forall a, In a (calibration_angles s) -> is_str a = false) ->
  loop_body s r = Raised e ->
  e = TypeError /\ (r = RNone \/ In RNone (calibration_angles s)).
Proof.
  intros Inv Hns H.
  destruct (is_str r) eqn:Hr.
  { destruct r; try discriminate Hr. simpl in H. discriminate H. }
  destruct (Z.eq_dec (calibration_frames s) 0) as [E0|N0].
  { destruct (inv_done s Inv E0) as (ts & _ & Hb).
    destruct r as [st|p y r'|]; [discriminate Hr| |].
    - rewrite (loop_body_classify s p y r' _ E0 Hb) in H.
      destruct (_ && _ && _); discriminate H.
    - rewrite (loop_body_none_calibrated s E0) in H. inversion H. auto. }
  destruct (Z.eq_dec (calibration_frames s) 1) as [E1|N1].
  - rewrite (loop_body_finalize s r Hr E1) in H.
    destruct (comprehension 0 (calibration_angles s ++ r :: nil)) as [e0|ps] eqn:C0.
    + simpl in H. inversion H; subst.
      destruct (comprehension_error _ _ C0) as (He & a & Ha & Hest).
      split; [exact He|].
      apply in_app_or in Ha. destruct Ha as [Ha | [<- | []]].
      * right. pose proof (Hns a Ha) as Hstr.
        destruct a; try discriminate; exact Ha.
      * left. destruct r; try discriminate; reflexivity.
    + destruct (comprehension_inv _ _ _ C0) as [ts Hts].
      rewrite <- C0, Hts, finalize_tuples in H.
      destruct (mean3 ts) as [[bp by_] br]. discriminate H.
  - rewrite (loop_body_collect s r Hr N0 N1) in H. discriminate H.
Qed.

Lemma pipeline_not_calculating (status : string) :
  pipeline (RStr status) -> String.eqb "Calculating Face Angles" status = false.
Proof.
  intros [H | ->]; [|reflexivity].
  destruct (String.eqb_spec "Calculating Face Angles" status) as [<-|_];
    [discriminate H | reflexivity].
Qed.

(** The counter as a function of the slot-taking results seen so far. *)
Lemma sent_step_slots (s s' : session) (r : pyresult) (status : string) (n : nat) :
  sent_step s r status s' ->
  calibration_frames s = Z.max 0 (10 - Z.of_nat n) ->
  calibration_frames s'
  = Z.max 0 (10 - Z.of_nat (n + tick (takes_slot r))).
Proof.
  intros [-> ->|Hr N0 N1 _ Hc _ _|ts Hr E1 _ Hc _ _ _|? ? ? ? -> E0 _ -> _] Hn;
    unfold takes_slot; cbn [is_str negb tick].
  - rewrite Nat.add_0_r. exact Hn.
  - rewrite Hr. cbn [negb tick]. lia.
  - rewrite Hr. cbn [negb tick]. lia.
  - lia.
Qed.

Lemma replay_slots (s s' : session) (evs : list event) (n : nat) :
  session_inv s -> replay s evs = Some s' ->
  calibration_frames s = Z.max 0 (10 - Z.of_nat n) ->
  calibration_frames s'
  = Z.max 0 (10 - Z.of_nat (n + slots_asked (map fst evs))).
Proof.
  revert s n. induction evs as [|[r st] evs IH]; intros s n Inv H Hn.
  - inversion H; subst. unfold slots_asked. simpl. rewrite Nat.add_0_r. exact Hn.
  - apply replay_cons in H. destruct H as (s1 & Hstep & Hrest).
    pose proof (loop_body_sent s r st s1 Inv Hstep) as Hsent.
    pose proof (IH s1 _ (sent_step_inv s r st s1 Inv Hsent) Hrest
                   (sent_step_slots s s1 r st n Hsent Hn)) as Hfin.
    unfold slots_asked in *. cbn [map fst filter].
    destruct (takes_slot r); cbn [tick List.length] in *;
      rewrite ?Nat.add_0_r, <- ?Nat.add_assoc in Hfin; exact Hfin.
Qed.

(** The counter as a function of the "Calculating Face Angles" sent. *)
Lemma sent_step_calculating (s s' : session) (r : pyresult) (status : string)
      (m : nat) :
  pipeline r -> sent_step s r status s' ->
  Z.of_nat m = (10 - calibration_frames s)%Z ->
  Z.of_nat (m + tick (String.eqb "Calculating Face Angles" status))
  = (10 - calibration_frames s')%Z.
Proof.
  intros Hp [-> ->|_ _ _ -> Hc _ _|ts _ E1 -> Hc _ _ _|p y r' b _ _ _ -> ->] Hm.
  - rewrite (pipeline_not_calculating _ Hp). cbn [tick]. lia.
  - change (String.eqb "Calculating Face Angles" "Calculating Face Angles") with true.
    cbn [tick]. lia.
  - change (String.eqb "Calculating Face Angles" "Calculating Face Angles") with true.
    cbn [tick]. lia.
  - destruct (_ && _ && _);
      [change (String.eqb "Calculating Face Angles" "Focused") with false
      |change (String.eqb "Calculating Face Angles" "Not Focused") with false];
      cbn [tick]; lia.
Qed.

Lemma replay_calculating (s s' : session) (evs : list event) (m : nat) :
  session_inv s -> Forall pipeline (map fst evs) -> replay s evs = Some s' ->
  Z.of_nat m = (10 - calibration_frames s)%Z ->
  Z.of_nat (m + calculating (map snd evs)) = (10 - calibration_frames s')%Z.
Proof.
  revert s m. induction evs as [|[r st] evs IH]; intros s m Inv Hall H Hm.
  - inversion H; subst. unfold calculating. simpl. rewrite Nat.add_0_r. exact Hm.
  - apply replay_cons in H. destruct H as (s1 & Hstep & Hrest).
    simpl in Hall. inversion Hall as [|? ? Hp Hall']; subst.
    pose proof (loop_body_sent s r st s1 Inv Hstep) as Hsent.
    pose proof (IH s1 _ (sent_step_inv s r st s1 Inv Hsent) Hall' Hrest
                   (sent_step_calculating s s1 r st m Hp Hsent Hm)) as Hfin.
    unfold calculating in *. cbn [map snd filter].
    destruct (String.eqb "Calculating Face Angles" st); cbn [tick List.length] in *;
      rewrite ?Nat.add_0_r, <- ?Nat.add_assoc in Hfin; exact Hfin.
Qed.

Lemma replay_none_collected (s s' : session) (evs : list event) :
  session_inv s -> replay s evs = Some s' ->
  In RNone (map fst evs) -> In RNone (calibration_angles s').
Proof.
  revert s. induction evs as [|[r st] evs IH]; intros s Inv H Hin; [contradiction Hin|].
  apply replay_cons in H. destruct H as (s1 & Hstep & Hrest).
  pose proof (loop_body_sent s r st s1 Inv Hstep) as Hsent.
  pose proof (sent_step_inv s r st s1 Inv Hsent) as Inv1.
  simpl in Hin. destruct Hin as [-> | Hin]; [|exact (IH s1 Inv1 Hrest Hin)].
  apply (replay_angles_kept s1 s' evs RNone Inv1 Hrest).
  destruct Hsent as [Hr _|_ _ _ _ _ Ha _|ts _ _ _ _ Ha _ _|? ? ? ? Hr _ _ _ _];
    try discriminate Hr; rewrite Ha; apply in_or_app; right; left; reflexivity.
Qed.

Lemma none_not_tuple (ts : list vec3) : ~ In RNone (map tuple ts).
Proof.
  intros H. apply in_map_iff in H. destruct H as (t & Ht & _). discriminate Ht.
Qed.

Lemma split_with_comma (s : string) :
  has_comma s = true ->
  exists header rest,
    split_comma_once s = header :: rest :: nil
    /\ s = (header ++ String ","%char rest)%string
    /\ has_comma header = false.
Proof.
  induction s as [|c s IH]; simpl; [discriminate|].
  destruct (Ascii.eqb_spec c ","%char) as [->|Hc]; simpl.
  - intros _. exists EmptyString, s. repeat split.
  - intros H. destruct (IH H) as (header & rest & Hs & Heq & Hh).
    exists (String c header), rest. rewrite Hs. repeat split.
    + simpl. rewrite <- Heq. reflexivity.
    + simpl. destruct (Ascii.eqb_spec c ","%char); [contradiction | exact Hh].
Qed.

(** The list of angles is the first ten slot-taking results. *)
Lemma sent_step_first_ten (s s' : session) (r : pyresult) (status : string)
      (seen : list pyresult) :
  session_inv s -> sent_step s r status s' ->
  calibration_angles s = firstn 10 seen ->
  calibration_angles s'
  = firstn 10 (seen ++ (if takes_slot r then r :: nil else nil)).
Proof.
  intros Inv Hstep Hseen.
  pose proof (inv_slots s Inv) as Hlen. pose proof (inv_range s Inv) as Hrange.
  rewrite Hseen, length_firstn in Hlen.
  assert (Hgrow : is_str r = false -> calibration_frames s <> 0%Z ->
                  calibration_angles s' = calibration_angles s ++ r :: nil ->
                  calibration_angles s'
                  = firstn 10 (seen ++ (if takes_slot r then r :: nil else nil))).
  { intros Hr N0 Ha. unfold takes_slot. rewrite Hr. cbn [negb].
    rewrite Ha, Hseen.
    rewrite (firstn_all2 seen) by lia.
    rewrite firstn_all2; [reflexivity|].
    rewrite length_app. simpl. lia. }
  destruct Hstep as [-> ->|Hr N0 _ _ _ Ha _|ts Hr E1 _ _ Ha _ _|p y r' b -> E0 _ -> _].
  - unfold takes_slot. cbn [is_str negb]. rewrite app_nil_r. exact Hseen.
  - exact (Hgrow Hr N0 Ha).
  - apply (Hgrow Hr); [lia | exact Ha].
  - unfold takes_slot. cbn [is_str negb]. rewrite firstn_app.
    replace (10 - List.length seen)%nat with 0%nat by lia.
    cbn [firstn]. rewrite app_nil_r. exact Hseen.
Qed.

Lemma replay_first_ten (s s' : session) (evs : list event) (seen : list pyresult) :
  session_inv s -> replay s evs = Some s' ->
  calibration_angles s = firstn 10 seen ->
  calibration_angles s' = firstn 10 (seen ++ filter takes_slot (map fst evs)).
Proof.
  revert s seen. induction evs as [|[r st] evs IH]; intros s seen Inv H Hseen.
  - inversion H; subst. simpl. rewrite app_nil_r. exact Hseen.
  - apply replay_cons in H. destruct H as (s1 & Hstep & Hrest).
    pose proof (loop_body_sent s r st s1 Inv Hstep) as Hsent.
    pose proof (IH s1 _ (sent_step_inv s r st s1 Inv Hsent) Hrest
                   (sent_step_first_ten s s1 r st seen Inv Hsent Hseen)) as Hfin.
    rewrite Hfin. cbn [map fst filter].
    destruct (takes_slot r); [rewrite <- app_assoc | rewrite app_nil_r]; reflexivity.
Qed.

Lemma firstn_succ_nth {A} (l : list A) (k : nat) (d : A) :
  (k < List.length l)%nat -> firstn (S k) l = firstn k l ++ nth k l d :: nil.
Proof.
  revert k. induction l as [|x l IH]; intros k Hk; simpl in Hk; [lia|].
  destruct k as [|k]; [reflexivity|].
  cbn [firstn nth app]. cbn [firstn] in IH. rewrite (IH k) by lia. reflexivity.
Qed.

Lemma in_firstn {A} (l : list A) (k : nat) (a : A) : In a (firstn k l) -> In a l.
Proof.
  intros H. rewrite <- (firstn_skipn k l). apply in_or_app. left. exact H.
Qed.

Section Traces.

Context `{L : Libs}.

(** [process_frame] raises only what [cv2.imdecode] raises. *)
Lemma process_frame_raises (fm : tracker) (image_data : string) (e : pyexn) :
  process_frame fm image_data = inl e ->
  exists img_bytes,
    decode_payload image_data = inr img_bytes /\ imdecode img_bytes = inl e.
Proof.
  unfold process_frame.
  destruct (decode_payload image_data) as [status|img_bytes]; [discriminate|].
  destruct (imdecode img_bytes) as [e'|[frame|]] eqn:Hi.
  - intros H. inversion H; subst. exists img_bytes. split; [reflexivity | exact Hi].
  - destruct (shape frame) as [h w].
    destruct (face_mesh_process fm (cvtColor frame)) as [fm1 [[|f faces]|]];
      discriminate.
  - discriminate.
Qed.

Lemma frame_results_length (fm : tracker) (inbox : list string) :
  first_raise fm inbox = None ->
  List.length (frame_results fm inbox) = List.length inbox.
Proof.
  revert fm. induction inbox as [|image_data later IH]; intros fm; simpl; [reflexivity|].
  destruct (process_frame fm image_data) as [e|[fm' r]]; [discriminate|].
  intros H. simpl. rewrite (IH fm' H). reflexivity.
Qed.

(** The text on which [process_frame] first raises is the one after the
    results obtained. *)
Lemma first_raise_frame (fm : tracker) (inbox : list string) (e : pyexn) :
  first_raise fm inbox = Some e ->
  (List.length (frame_results fm inbox) < List.length inbox)%nat
  /\ exists img_bytes,
       decode_payload (nth (List.length (frame_results fm inbox)) inbox "")
       = inr img_bytes
       /\ imdecode img_bytes = inl e.
Proof.
  revert fm. induction inbox as [|image_data later IH]; intros fm; simpl; [discriminate|].
  destruct (process_frame fm image_data) as [e'|[fm' r]] eqn:Hpf.
  - intros H. inversion H; subst. simpl. split; [lia|].
    exact (process_frame_raises fm image_data e Hpf).
  - intros H. destruct (IH fm' H) as (Hlt & img_bytes & Hd & Hi).
    simpl. split; [lia|]. exists img_bytes. split; assumption.
Qed.

(** The trace follows the frames one by one; on a crash, the frame after
    the last answered one is the one on which [process_frame] or the loop
    body raised. *)
Lemma websocket_loop_frames (fm : tracker) (s : session) (inbox : list string)
      (evs : list event) (fin : ending) :
  websocket_loop fm s inbox = (evs, fin) ->
  map fst evs = firstn (List.length evs) (frame_results fm inbox)
  /\ match fin with
     | Disconnected _ =>
         List.length evs = List.length inbox /\ first_raise fm inbox = None
     | Crashed e =>
         (List.length evs < List.length inbox)%nat
         /\ exists s1,
              replay s evs = Some s1
              /\ (((List.length evs < List.length (frame_results fm inbox))%nat
                   /\ loop_body s1 (nth (List.length evs) (frame_results fm inbox)
                                        (RStr ""))
                      = Raised e)
                  \/ (List.length evs = List.length (frame_results fm inbox)
                      /\ first_raise fm inbox = Some e))
     end.
Proof.
  revert fm s evs fin.
  induction inbox as [|image_data later IH]; intros fm s evs fin H; simpl in H.
  - inversion H; subst. repeat split.
  - simpl. destruct (process_frame fm image_data) as [e0|[fm' r]].
    { inversion H; subst. split; [reflexivity|]. split; [simpl; lia|].
      exists s. split; [reflexivity|]. right. split; reflexivity. }
    destruct (loop_body s r) as [st s1|e] eqn:Hstep.
    + destruct (websocket_loop fm' s1 later) as [evs1 fin1] eqn:Hrest.
      inversion H; subst. destruct (IH _ _ _ _ Hrest) as [Hres Hfin].
      split; [simpl; rewrite Hres; reflexivity|].
      destruct fin as [sf|e].
      * destruct Hfin as [Hlen Hraise]. split; [simpl; rewrite Hlen; reflexivity|].
        exact Hraise.
      * destruct Hfin as (Hlt & s2 & Hrep & Hcause).
        split; [simpl; lia|]. exists s2. split.
        -- simpl. rewrite Hstep, String.eqb_refl. exact Hrep.
        -- destruct Hcause as [[Hl Hraise] | [Hl Hraise]].
           ++ left. split; [simpl; lia | exact Hraise].
           ++ right. split; [simpl; rewrite Hl; reflexivity | exact Hraise].
    + inversion H; subst. split; [reflexivity|]. split; [simpl; lia|].
      exists s. split; [reflexivity|]. left. split; [simpl; lia | exact Hstep].
Qed.

(** Where a crash of a session comes from. *)
Lemma crash_origin (fm : tracker) (inbox : list string) (evs : list event)
      (e : pyexn) :
  websocket_endpoint fm inbox = (evs, Crashed e) ->
  (e = TypeError
   /\ In RNone (firstn (S (List.length evs)) (frame_results fm inbox)))
  \/ (List.length evs = List.length (frame_results fm inbox)
      /\ first_raise fm inbox = Some e).
Proof.
  intros Hrun.
  destruct (websocket_loop_frames _ _ _ _ _ Hrun) as (Hres & Hlt & s1 & Hrep & Hcause).
  destruct Hcause as [[Hl Hraise] | Hpf]; [left | right; exact Hpf].
  pose proof (replay_inv _ _ _ new_session_inv Hrep) as Inv1.
  assert (Hns : forall a, In a (calibration_angles s1) -> is_str a = false).
  { intros a Ha.
    destruct (replay_angles_origin _ _ _ a new_session_inv Hrep Ha) as [[] | [_ Hs]].
    exact Hs. }
  destruct (loop_body_raised _ _ _ Inv1 Hns Hraise) as [He Hcause].
  split; [exact He|].
  rewrite (firstn_succ_nth _ _ (RStr "")) by exact Hl.
  apply in_or_app. destruct Hcause as [Hr | Hin].
  - right. left. exact Hr.
  - left. rewrite <- Hres.
    destruct (replay_angles_origin _ _ _ RNone new_session_inv Hrep Hin) as [[] | [H _]].
    exact H.
Qed.

End Traces.

(** ** The properties *)

Section Further.

Context `{L : Libs}.

(** X1.  Whatever the frames, every text the handler sends is "Pose Not
    Detected", "Calculating Face Angles", "Focused", "Not Focused", or
    begins with "Error:". *)
Theorem statuses_are_known (fm : tracker) (inbox : list string)
        (evs : list event) (fin : ending) :
  websocket_endpoint fm inbox = (evs, fin) ->
  Forall known_status (statuses evs).
Proof.
  intros Hrun.
  destruct (websocket_loop_replay _ _ _ _ _ Hrun) as (Hall & s' & Hrep & _).
  exact (replay_known new_session s' evs new_session_inv Hall Hrep).
Qed.

(** X2.  When the handler ends because the client disconnects, it has
    sent one status for each text received, and the k-th status answers
    the result of [process_frame] on the k-th text. *)
Theorem disconnect_answers_every_frame (fm : tracker) (inbox : list string)
        (evs : list event) (s : session) :
  websocket_endpoint fm inbox = (evs, Disconnected s) ->
  List.length (statuses evs) = List.length inbox
  /\ map fst evs = frame_results fm inbox
  /\ replay new_session evs = Some s.
Proof.
  intros Hrun.
  destruct (websocket_loop_frames _ _ _ _ _ Hrun) as [Hres [Hlen Hraise]].
  destruct (websocket_loop_replay _ _ _ _ _ Hrun) as (_ & s' & Hrep & Hfin).
  split; [unfold statuses; rewrite length_map; exact Hlen|].
  split; [|rewrite (Hfin s eq_refl); exact Hrep].
  rewrite Hres, Hlen, <- (frame_results_length fm inbox Hraise). apply firstn_all.
Qed.

(** X3.  An exception ends the handler in two ways only.  Either
    [cv2.imdecode] raised on the frame that is not answered, and the
    exception is the one it raised.  Or the exception is [TypeError] and
    [process_frame] returned [None] on the frame that is not answered or
    on one answered before it.  The frames up to there have been
    answered, the others are never read. *)
Theorem crash_causes (fm : tracker) (inbox : list string)
        (evs : list event) (e : pyexn) :
  websocket_endpoint fm inbox = (evs, Crashed e) ->
  (List.length evs < List.length inbox)%nat
  /\ map fst evs = firstn (List.length evs) (frame_results fm inbox)
  /\ ((e = TypeError
       /\ In RNone (firstn (S (List.length evs)) (frame_results fm inbox)))
      \/ (map fst evs = frame_results fm inbox
          /\ first_raise fm inbox = Some e
          /\ exists img_bytes,
               decode_payload (nth (List.length evs) inbox "") = inr img_bytes
               /\ imdecode img_bytes = inl e)).
Proof.
  intros Hrun.
  destruct (websocket_loop_frames _ _ _ _ _ Hrun) as (Hres & Hlt & _).
  split; [exact Hlt|]. split; [exact Hres|].
  destruct (crash_origin fm inbox evs e Hrun) as [Hnone | [Hl Hraise]];
    [left; exact Hnone | right].
  split; [rewrite Hres, Hl; apply firstn_all|]. split; [exact Hraise|].
  destruct (first_raise_frame fm inbox e Hraise) as (_ & img_bytes & Hd & Hi).
  exists img_bytes. rewrite Hl. split; assumption.
Qed.

(** X4.  When [process_frame] raises on none of the frames (that is,
    [cv2.imdecode] does not raise) and returns [None] on none of them,
    the handler raises nothing: it answers every frame and ends with the
    disconnect. *)
Theorem no_raise_no_none_no_crash (fm : tracker) (inbox : list string) :
  first_raise fm inbox = None ->
  ~ In RNone (frame_results fm inbox) ->
  exists evs s,
    websocket_endpoint fm inbox = (evs, Disconnected s)
    /\ List.length evs = List.length inbox.
Proof.
  intros Hraise Hnone.
  destruct (websocket_endpoint fm inbox) as [evs [s|e]] eqn:Hrun.
  - exists evs, s. split; [reflexivity|].
    destruct (websocket_loop_frames _ _ _ _ _ Hrun) as [_ [Hlen _]]. exact Hlen.
  - exfalso.
    destruct (crash_origin fm inbox evs e Hrun) as [[_ Hin] | [_ Hsome]].
    + apply Hnone. exact (in_firstn _ _ _ Hin).
    + rewrite Hraise in Hsome. discriminate Hsome.
Qed.

(** X5.  At the disconnect the counter is 10 minus the number of
    non-string results received, and 0 once there have been ten or more:
    string results (errors, no face) never take a slot. *)
Theorem counter_counts_non_string_results (fm : tracker) (inbox : list string)
        (evs : list event) (s : session) :
  websocket_endpoint fm inbox = (evs, Disconnected s) ->
  calibration_frames s
  = Z.max 0 (10 - Z.of_nat (slots_asked (frame_results fm inbox))).
Proof.
  intros Hrun.
  destruct (websocket_loop_frames _ _ _ _ _ Hrun) as [Hres [Hlen Hraise]].
  destruct (websocket_loop_replay _ _ _ _ _ Hrun) as (_ & s' & Hrep & Hfin).
  rewrite (Hfin s eq_refl).
  rewrite (replay_slots new_session s' evs 0 new_session_inv Hrep eq_refl).
  rewrite Hres, Hlen, <- (frame_results_length fm inbox Hraise), firstn_all.
  reflexivity.
Qed.

(** X6.  A decodable frame in which the detector finds no face ([None] or
    an empty list) gives "Pose Not Detected": the detector has run once,
    the session is as before. *)
Theorem no_face_is_pose_not_detected
        (fm fm' : tracker) (image_data : string) (img_bytes : list Byte.byte)
        (frame : image) (found : option (list face)) (s : session)
        (later : list string) :
  decode_payload image_data = inr img_bytes ->
  imdecode img_bytes = inr (Some frame) ->
  face_mesh_process fm (cvtColor frame) = (fm', found) ->
  found = None \/ found = Some nil ->
  process_frame fm image_data = inr (fm', RStr "Pose Not Detected")
  /\ loop_body s (RStr "Pose Not Detected") = Sent "Pose Not Detected" s
  /\ websocket_loop fm s (image_data :: later)
     = ((RStr "Pose Not Detected", "Pose Not Detected")
          :: fst (websocket_loop fm' s later),
        snd (websocket_loop fm' s later)).
Proof.
  intros Hd Hi Hf Hnone.
  assert (H : process_frame fm image_data = inr (fm', RStr "Pose Not Detected")).
  { unfold process_frame. rewrite Hd, Hi. destruct (shape frame) as [h w].
    rewrite Hf. destruct Hnone as [-> | ->]; reflexivity. }
  split; [exact H|]. split; [reflexivity|].
  simpl. rewrite H. simpl.
  destruct (websocket_loop fm' s later) as [evs fin]. reflexivity.
Qed.

(** X7.  Among several faces the pose is that of the first face on which
    the solve converges: the faces before it are passed over, those after
    it are not looked at. *)
Theorem first_converging_face_wins
        (before after : list face) (f : face) (w h : Z) (rv tv : vec3) :
  (forall g, In g before ->
     fst (fst (solvePnP model_points (image_points g w h)
                        (camera_matrix w h) dist_coeffs)) = false) ->
  solvePnP model_points (image_points f w h) (camera_matrix w h) dist_coeffs
  = (true, rv, tv) ->
  estimate_faces (before ++ f :: after) w h = tuple (RQDecomp3x3 (Rodrigues rv)).
Proof.
  intros Hfail Hok. induction before as [|g before IH]; simpl.
  - rewrite Hok. destruct (RQDecomp3x3 (Rodrigues rv)) as [[p y] r]. reflexivity.
  - pose proof (Hfail g (or_introl eq_refl)) as Hg.
    destruct (solvePnP _ (image_points g w h) _ _) as [[success rv'] tv'].
    simpl in Hg. subst success.
    apply IH. intros g' Hg'. apply Hfail. right. exact Hg'.
Qed.

(** X8.  In every session the list of calibration angles is never
    emptied: it has 10 minus the counter entries, none of them a string;
    the baseline is bound exactly when the counter is 0, and it is then
    the mean of the ten tuples that are still in the list. *)
Theorem calibration_list_invariant (s : session) :
  reachable s ->
  Z.of_nat (List.length (calibration_angles s)) = (10 - calibration_frames s)%Z
  /\ (forall a, In a (calibration_angles s) -> is_str a = false)
  /\ (baseline s <> None <-> calibration_frames s = 0%Z)
  /\ (calibration_frames s = 0%Z ->
      exists ts, List.length ts = 10%nat
                 /\ calibration_angles s = map tuple ts
                 /\ baseline s = Some (mean3 ts)).
Proof.
  intros Hs. pose proof (reachable_inv s Hs) as Inv.
  destruct (reachable_replay s Hs) as (evs & _ & Hrep).
  split; [exact (inv_slots s Inv)|]. split; [|split].
  - intros a Ha.
    destruct (replay_angles_origin _ _ _ a new_session_inv Hrep Ha) as [[] | [_ H]].
    exact H.
  - split.
    + intros Hb. destruct (Z.eq_dec (calibration_frames s) 0) as [E|N]; [exact E|].
      contradiction Hb. exact (inv_open s Inv N).
    + intros E0. destruct (inv_done s Inv E0) as (ts & _ & Hb).
      rewrite Hb. discriminate.
  - intros E0. destruct (inv_done s Inv E0) as (ts & Hts & Hb).
    exists ts. split; [|split; assumption].
    pose proof (inv_slots s Inv) as Hlen.
    rewrite Hts, length_map, E0 in Hlen. lia.
Qed.

(** X9.  A session in which a [None] result has been answered never
    classifies: none of its statuses is "Focused" or "Not Focused", and
    at most nine non-string results are answered. *)
Theorem none_during_calibration_blocks_classification
        (fm : tracker) (inbox : list string) (evs : list event) (fin : ending) :
  websocket_endpoint fm inbox = (evs, fin) ->
  In RNone (map fst evs) ->
  classifications (statuses evs) = 0%nat
  /\ (slots_asked (map fst evs) <= 9)%nat.
Proof.
  intros Hrun Hnone.
  destruct (websocket_loop_replay _ _ _ _ _ Hrun) as (Hall & s' & Hrep & _).
  pose proof (replay_inv _ _ _ new_session_inv Hrep) as Inv.
  pose proof (replay_none_collected _ _ _ new_session_inv Hrep Hnone) as Hin.
  assert (N0 : calibration_frames s' <> 0%Z).
  { intros E0. destruct (inv_done s' Inv E0) as (ts & Hts & _).
    rewrite Hts in Hin. exact (none_not_tuple ts Hin). }
  split.
  - destruct (replay_counted _ _ _ _ _ new_session_inv new_session_counted Hall Hrep)
      as [_ Hc].
    unfold statuses. destruct (classifications (map snd evs)) as [|c]; [reflexivity|].
    contradiction N0. apply Hc. simpl. discriminate.
  - pose proof (replay_slots new_session s' evs 0 new_session_inv Hrep eq_refl) as Hcf.
    rewrite Nat.add_0_l in Hcf. lia.
Qed.

(** X10.  The prefix stage raises exactly when the payload starts with
    "data:" and holds no comma.  Otherwise it hands over the payload
    itself (no such prefix) or what follows the first comma: the header
    dropped has no comma, later commas stay in the data. *)
Theorem strip_metadata_cases (image_data : string) :
  (forall e, strip_metadata image_data = inl e <->
             (prefix "data:" image_data = true /\ has_comma image_data = false
              /\ e = unpack_error))
  /\ (forall data, strip_metadata image_data = inr data ->
        (prefix "data:" image_data = false /\ data = image_data)
        \/ (prefix "data:" image_data = true
            /\ exists header,
                 image_data = (header ++ "," ++ data)%string
                 /\ has_comma header = false)).
Proof.
  unfold strip_metadata. destruct (prefix "data:" image_data) eqn:Hp.
  - destruct (has_comma image_data) eqn:Hc.
    + destruct (split_with_comma image_data Hc) as (header & rest & Hs & Heq & Hh).
      rewrite Hs. split.
      * intros e. split; [discriminate | intros (_ & H & _); discriminate H].
      * intros data H. inversion H; subst data. right. split; [reflexivity|].
        exists header. split; [exact Heq | exact Hh].
    + rewrite (split_without_comma image_data Hc). split.
      * intros e. split.
        -- intros H. inversion H. auto.
        -- intros (_ & _ & ->). reflexivity.
      * intros data H. discriminate H.
  - split.
    + intros e. split; [discriminate | intros (H & _); discriminate H].
    + intros data H. inversion H. left. auto.
Qed.

(** X11.  The handler works frame by frame: running it over an inbox
    followed by more texts gives the trace over the inbox, followed by the
    trace of the rest from the session and tracker reached; if the first
    part already raised, the rest changes nothing. *)
Theorem websocket_loop_app (fm : tracker) (s : session) (inbox later : list string) :
  websocket_loop fm s (inbox ++ later)
  = match websocket_loop fm s inbox with
    | (evs, Crashed e) => (evs, Crashed e)
    | (evs, Disconnected s1) =>
        (evs ++ fst (websocket_loop (tracker_after fm inbox) s1 later),
         snd (websocket_loop (tracker_after fm inbox) s1 later))
    end.
Proof.
  revert fm s. induction inbox as [|image_data inbox IH]; intros fm s; simpl.
  - destruct (websocket_loop fm s later); reflexivity.
  - destruct (process_frame fm image_data) as [e|[fm' r]]; [reflexivity|].
    destruct (loop_body s r) as [st s1|e]; [|reflexivity].
    rewrite IH. destruct (websocket_loop fm' s1 inbox) as [evs [s2|e]]; reflexivity.
Qed.

(** X12.  A session sends "Calculating Face Angles" at most ten times;
    when the client disconnects it has sent it 10 minus the counter
    times. *)
Theorem at_most_ten_calculating (fm : tracker) (inbox : list string)
        (evs : list event) (fin : ending) :
  websocket_endpoint fm inbox = (evs, fin) ->
  (calculating (statuses evs) <= 10)%nat
  /\ forall s, fin = Disconnected s ->
               Z.of_nat (calculating (statuses evs)) = (10 - calibration_frames s)%Z.
Proof.
  intros Hrun.
  destruct (websocket_loop_replay _ _ _ _ _ Hrun) as (Hall & s' & Hrep & Hfin).
  pose proof (replay_calculating new_session s' evs 0 new_session_inv Hall Hrep eq_refl)
    as Hcount.
  pose proof (inv_range s' (replay_inv _ _ _ new_session_inv Hrep)) as Hrange.
  rewrite Nat.add_0_l in Hcount. unfold statuses. split; [lia|].
  intros s E. rewrite (Hfin s E). exact Hcount.
Qed.

End Further.

Section Provenance.

Context `{L : Libs}.

Lemma estimate_faces_tuple (faces : list face) (w h : Z) (pitch yaw roll : float) :
  estimate_faces faces w h = RTuple pitch yaw roll ->
  exists f rv tv,
    In f faces
    /\ solvePnP model_points (image_points f w h) (camera_matrix w h) dist_coeffs
       = (true, rv, tv)
    /\ RQDecomp3x3 (Rodrigues rv) = (pitch, yaw, roll).
Proof.
  induction faces as [|f faces IH]; simpl; [discriminate|].
  destruct (solvePnP model_points (image_points f w h) (camera_matrix w h) dist_coeffs)
    as [[success rv] tv] eqn:Hsolve.
  destruct success.
  - destruct (RQDecomp3x3 (Rodrigues rv)) as [[p y] r] eqn:Hrq.
    intros H. inversion H; subst.
    exists f, rv, tv. repeat split; auto.
  - intros H. destruct (IH H) as (g & rv' & tv' & Hin & Hs & Hrq).
    exists g, rv', tv'. repeat split; auto.
Qed.

(** X13.  [process_frame] returns angles only for a payload that decodes
    to an image in which the detector, run once, finds a face on which
    the solve converges; the angles are the Euler angles of that
    rotation. *)
Theorem estimate_needs_converged_solve
        (fm fm' : tracker) (image_data : string) (pitch yaw roll : float) :
  process_frame fm image_data = inr (fm', RTuple pitch yaw roll) ->
  exists img_bytes frame faces f rv tv,
    decode_payload image_data = inr img_bytes
    /\ imdecode img_bytes = inr (Some frame)
    /\ face_mesh_process fm (cvtColor frame) = (fm', Some faces)
    /\ In f faces
    /\ solvePnP model_points
                (image_points f (snd (shape frame)) (fst (shape frame)))
                (camera_matrix (snd (shape frame)) (fst (shape frame)))
                dist_coeffs
       = (true, rv, tv)
    /\ RQDecomp3x3 (Rodrigues rv) = (pitch, yaw, roll).
Proof.
  unfold process_frame.
  destruct (decode_payload image_data) as [status|img_bytes] eqn:Hd; [discriminate|].
  destruct (imdecode img_bytes) as [e|[frame|]] eqn:Hi; try discriminate.
  destruct (shape frame) as [h w] eqn:Hshape.
  destruct (face_mesh_process fm (cvtColor frame)) as [fm1 found] eqn:Hf.
  destruct found as [[|f0 faces]|]; try discriminate.
  intros H. injection H as Hfm Hest. subst fm1.
  destruct (estimate_faces_tuple (f0 :: faces) w h pitch yaw roll Hest)
    as (f & rv & tv & Hin & Hs & Hrq).
  exists img_bytes, frame, (f0 :: faces), f, rv, tv.
  rewrite Hshape. cbn [fst snd]. repeat split; auto.
Qed.

(** X14.  At the disconnect the calibration list is the first ten
    non-string results of the frames, in order, however many error or
    no-face frames came in between; once the counter is 0 these ten are
    tuples and the baseline is their mean. *)
Theorem calibration_uses_first_ten_results (fm : tracker) (inbox : list string)
        (evs : list event) (s : session) :
  websocket_endpoint fm inbox = (evs, Disconnected s) ->
  calibration_angles s = firstn 10 (filter takes_slot (frame_results fm inbox))
  /\ (calibration_frames s = 0%Z ->
      exists ts,
        firstn 10 (filter takes_slot (frame_results fm inbox)) = map tuple ts
        /\ baseline s = Some (mean3 ts)).
Proof.
  intros Hrun.
  destruct (websocket_loop_frames _ _ _ _ _ Hrun) as [Hres [Hlen Hraise]].
  destruct (websocket_loop_replay _ _ _ _ _ Hrun) as (_ & s' & Hrep & Hfin).
  rewrite (Hfin s eq_refl).
  pose proof (replay_first_ten new_session s' evs nil new_session_inv Hrep eq_refl)
    as Hten.
  rewrite Hres, Hlen, <- (frame_results_length fm inbox Hraise), firstn_all in Hten.
  cbn [app] in Hten. split; [exact Hten|].
  intros E0.
  destruct (inv_done s' (replay_inv _ _ _ new_session_inv Hrep) E0) as (ts & Hts & Hb).
  exists ts. rewrite <- Hten. split; assumption.
Qed.

End Provenance.

(** ** Instances of the further properties in the concrete environment *)

Lemma statuses_are_known_witness :
  Forall known_status
         (statuses (fst (websocket_endpoint (L := Demo.libs)
                           Runs.mixed_seen Runs.mixed_inbox))).
Proof.
  apply (statuses_are_known (L := Demo.libs) Runs.mixed_seen Runs.mixed_inbox
           (fst (websocket_endpoint (L := Demo.libs) Runs.mixed_seen Runs.mixed_inbox))
           (snd (websocket_endpoint (L := Demo.libs) Runs.mixed_seen Runs.mixed_inbox))).
  vm_compute. reflexivity.
Defined.

Lemma disconnect_answers_every_frame_witness :
  let evs := fst (websocket_endpoint (L := Demo.libs) Runs.mixed_seen Runs.mixed_inbox) in
  List.length (statuses evs) = List.length Runs.mixed_inbox
  /\ map fst evs = frame_results (L := Demo.libs) Runs.mixed_seen Runs.mixed_inbox
  /\ replay new_session evs
     = Some (session_after (L := Demo.libs) Runs.mixed_seen Runs.mixed_inbox).
Proof.
  apply (disconnect_answers_every_frame (L := Demo.libs)
           Runs.mixed_seen Runs.mixed_inbox).
  vm_compute. reflexivity.
Defined.

Lemma crash_causes_witness :
  let fm := Demo.pose 0 0 0 :: nil in
  let inbox := Demo.jpeg :: "" :: Demo.jpeg :: nil in
  let evs := fst (websocket_endpoint (L := Demo.libs) fm inbox) in
  (List.length evs < List.length inbox)%nat
  /\ map fst evs = firstn (List.length evs) (frame_results (L := Demo.libs) fm inbox)
  /\ ((CvError = TypeError
       /\ In RNone (firstn (S (List.length evs))
                           (frame_results (L := Demo.libs) fm inbox)))
      \/ (map fst evs = frame_results (L := Demo.libs) fm inbox
          /\ first_raise (L := Demo.libs) fm inbox = Some CvError
          /\ exists img_bytes,
               decode_payload (L := Demo.libs) (nth (List.length evs) inbox "")
               = inr img_bytes
               /\ imdecode (Libs := Demo.libs) img_bytes = inl CvError)).
Proof.
  intros fm inbox evs.
  apply (crash_causes (L := Demo.libs) fm inbox evs CvError).
  vm_compute. reflexivity.
Defined.

Lemma no_raise_no_none_no_crash_witness :
  exists evs s,
    websocket_endpoint (L := Demo.libs) Runs.full_seen Runs.full_inbox
    = (evs, Disconnected s)
    /\ List.length evs = List.length Runs.full_inbox.
Proof.
  apply (no_raise_no_none_no_crash (L := Demo.libs) Runs.full_seen Runs.full_inbox).
  - vm_compute. reflexivity.
  - vm_compute. intros H.
    repeat (destruct H as [H|H]; [discriminate H|]). exact H.
Defined.

Lemma counter_counts_non_string_results_witness :
  calibration_frames (session_after (L := Demo.libs) Runs.mixed_seen Runs.mixed_inbox)
  = Z.max 0 (10 - Z.of_nat (slots_asked
                              (frame_results (L := Demo.libs)
                                 Runs.mixed_seen Runs.mixed_inbox))).
Proof.
  apply (counter_counts_non_string_results (L := Demo.libs)
           Runs.mixed_seen Runs.mixed_inbox
           (fst (websocket_endpoint (L := Demo.libs) Runs.mixed_seen Runs.mixed_inbox))).
  vm_compute. reflexivity.
Defined.

Lemma no_face_is_pose_not_detected_witness :
  process_frame (L := Demo.libs) (Demo.no_face :: nil) Demo.jpeg
  = inr (nil, RStr "Pose Not Detected")
  /\ loop_body Scenario.nine (RStr "Pose Not Detected")
     = Sent "Pose Not Detected" Scenario.nine
  /\ websocket_loop (L := Demo.libs) (Demo.no_face :: nil) Scenario.nine
                    (Demo.jpeg :: nil)
     = ((RStr "Pose Not Detected", "Pose Not Detected")
          :: fst (websocket_loop (L := Demo.libs) nil Scenario.nine nil),
        snd (websocket_loop (L := Demo.libs) nil Scenario.nine nil)).
Proof.
  apply (no_face_is_pose_not_detected (L := Demo.libs)
           (Demo.no_face :: nil) nil Demo.jpeg (list_byte_of_string "AAAA") tt None
           Scenario.nine nil).
  - vm_compute. reflexivity.
  - reflexivity.
  - reflexivity.
  - left. reflexivity.
Defined.

Lemma first_converging_face_wins_witness :
  estimate_faces (L := Demo.libs)
    ((Demo.scripted_face false 0 0 0 :: nil)
       ++ Demo.scripted_face true 1 2 3 :: Demo.scripted_face true 7 8 9 :: nil)
    1 1
  = tuple (RQDecomp3x3 (Libs := Demo.libs) (Rodrigues (Libs := Demo.libs) (1, 2, 3))).
Proof.
  apply (first_converging_face_wins (L := Demo.libs)
           (Demo.scripted_face false 0 0 0 :: nil)
           (Demo.scripted_face true 7 8 9 :: nil)
           (Demo.scripted_face true 1 2 3) 1 1 (1, 2, 3) Demo.zero3).
  - intros g [<-|[]]. vm_compute. reflexivity.
  - vm_compute. reflexivity.
Defined.

Lemma calibration_list_invariant_witness :
  Z.of_nat (List.length (calibration_angles Scenario.calibrated))
  = (10 - calibration_frames Scenario.calibrated)%Z
  /\ (forall a, In a (calibration_angles Scenario.calibrated) -> is_str a = false)
  /\ (baseline Scenario.calibrated <> None <-> calibration_frames Scenario.calibrated = 0%Z)
  /\ (calibration_frames Scenario.calibrated = 0%Z ->
      exists ts, List.length ts = 10%nat
                 /\ calibration_angles Scenario.calibrated = map tuple ts
                 /\ baseline Scenario.calibrated = Some (mean3 ts)).
Proof.
  apply (calibration_list_invariant (L := Demo.libs) Scenario.calibrated).
  exact ScenarioFacts.calibrated_reachable.
Defined.

Lemma none_during_calibration_blocks_classification_witness :
  let evs := fst (websocket_endpoint (L := Demo.libs)
                    Runs.poisoned_seen Runs.poisoned_inbox) in
  classifications (statuses evs) = 0%nat
  /\ (slots_asked (map fst evs) <= 9)%nat.
Proof.
  apply (none_during_calibration_blocks_classification (L := Demo.libs)
           Runs.poisoned_seen Runs.poisoned_inbox
           (fst (websocket_endpoint (L := Demo.libs)
                   Runs.poisoned_seen Runs.poisoned_inbox))
           (snd (websocket_endpoint (L := Demo.libs)
                   Runs.poisoned_seen Runs.poisoned_inbox))).
  - vm_compute. reflexivity.
  - vm_compute. right. left. reflexivity.
Defined.

Lemma strip_metadata_cases_witness :
  (prefix "data:" "data:a,b,c" = false /\ "b,c" = "data:a,b,c")
  \/ (prefix "data:" "data:a,b,c" = true
      /\ exists header,
           "data:a,b,c" = (header ++ "," ++ "b,c")%string
           /\ has_comma header = false).
Proof.
  apply (proj2 (strip_metadata_cases "data:a,b,c") "b,c").
  reflexivity.
Defined.

Lemma at_most_ten_calculating_witness :
  let evs := fst (websocket_endpoint (L := Demo.libs) Runs.full_seen Runs.full_inbox) in
  (calculating (statuses evs) <= 10)%nat
  /\ forall s,
       snd (websocket_endpoint (L := Demo.libs) Runs.full_seen Runs.full_inbox)
       = Disconnected s ->
       Z.of_nat (calculating (statuses evs)) = (10 - calibration_frames s)%Z.
Proof.
  apply (at_most_ten_calculating (L := Demo.libs) Runs.full_seen Runs.full_inbox).
  vm_compute. reflexivity.
Defined.

Lemma estimate_needs_converged_solve_witness :
  exists img_bytes frame faces f rv tv,
    decode_payload (L := Demo.libs) Demo.jpeg = inr img_bytes
    /\ imdecode (Libs := Demo.libs) img_bytes = inr (Some frame)
    /\ face_mesh_process (Libs := Demo.libs) (Demo.pose 1 2 3 :: nil)
                         (cvtColor (Libs := Demo.libs) frame)
       = (nil, Some faces)
    /\ In f faces
    /\ solvePnP (Libs := Demo.libs) model_points
                (image_points f (snd (shape (Libs := Demo.libs) frame))
                              (fst (shape (Libs := Demo.libs) frame)))
                (camera_matrix (snd (shape (Libs := Demo.libs) frame))
                               (fst (shape (Libs := Demo.libs) frame)))
                dist_coeffs
       = (true, rv, tv)
    /\ RQDecomp3x3 (Libs := Demo.libs) (Rodrigues (Libs := Demo.libs) rv) = (1, 2, 3).
Proof.
  apply (estimate_needs_converged_solve (L := Demo.libs)
           (Demo.pose 1 2 3 :: nil) nil Demo.jpeg 1 2 3).
  vm_compute. reflexivity.
Defined.

Lemma calibration_uses_first_ten_results_witness :
  calibration_angles (session_after (L := Demo.libs) Runs.mixed_seen Runs.mixed_inbox)
  = firstn 10 (filter takes_slot
                 (frame_results (L := Demo.libs) Runs.mixed_seen Runs.mixed_inbox))
  /\ (calibration_frames (session_after (L := Demo.libs) Runs.mixed_seen Runs.mixed_inbox)
      = 0%Z ->
      exists ts,
        firstn 10 (filter takes_slot
                     (frame_results (L := Demo.libs) Runs.mixed_seen Runs.mixed_inbox))
        = map tuple ts
        /\ baseline (session_after (L := Demo.libs) Runs.mixed_seen Runs.mixed_inbox)
           = Some (mean3 ts)).
Proof.
  apply (calibration_uses_first_ten_results (L := Demo.libs)
           Runs.mixed_seen Runs.mixed_inbox
           (fst (websocket_endpoint (L := Demo.libs) Runs.mixed_seen Runs.mixed_inbox))).
  vm_compute. reflexivity.
Defined.
